(** * Data Alchemist: the validation engine of the dashboard

    A shallow embedding of [src/app/dashboard/page.tsx]: the field
    normalizer, the three scalar parsers, the row validator, the dataset
    validator with its rule checks, and the cell-edit mutation, followed
    by the properties of the specification.

    The JavaScript runtime the code runs on is modelled first (module
    [JS]): strings are byte strings, numbers are exact rationals plus
    [NaN] (no rounding, no infinities), objects are association lists in
    property enumeration order. *)

From Stdlib Require Import ZArith QArith Qround Ascii String List Lia DecimalString.
From Stdlib Require DecimalPos DecimalZ.
From stdpp Require Import base list gmap strings.

Set Warnings "-register-all,-clear-no-such-hyp".
Local Open Scope string_scope.
Local Open Scope nat_scope.

(** ** The JavaScript runtime *)

Module JS.

(** *** Strings *)

(** The double quote character (code 34) and the one-character string. *)
Abbreviation DQ := (Ascii false true false false false true false false).
Definition quot : string := String DQ EmptyString.

(** White space and line terminators removed by [String.prototype.trim]
    (the ASCII ones: TAB, LF, VT, FF, CR, SP). *)
Definition is_ws (c : ascii) : bool :=
  let n := nat_of_ascii c in ((9 <=? n) && (n <=? 13)) || (n =? 32).

Fixpoint trimStart (s : string) : string :=
  match s with
  | String c s' => if is_ws c then trimStart s' else s
  | EmptyString => EmptyString
  end.

Fixpoint trimEnd (s : string) : string :=
  match s with
  | EmptyString => EmptyString
  | String c s' =>
      match trimEnd s' with
      | EmptyString => if is_ws c then EmptyString else String c EmptyString
      | t => String c t
      end
  end.

Definition trim (s : string) : string := trimEnd (trimStart s).

Definition lower (c : ascii) : ascii :=
  let n := nat_of_ascii c in
  if (65 <=? n) && (n <=? 90) then ascii_of_nat (n + 32) else c.

Fixpoint str_map (f : ascii -> ascii) (s : string) : string :=
  match s with
  | EmptyString => EmptyString
  | String c s' => String (f c) (str_map f s')
  end.

Fixpoint str_filter (f : ascii -> bool) (s : string) : string :=
  match s with
  | EmptyString => EmptyString
  | String c s' => if f c then String c (str_filter f s') else str_filter f s'
  end.

Definition toLowerCase (s : string) : string := str_map lower s.

(** [s.split(sep)] for a one-character separator: never empty. *)
Fixpoint split (sep : ascii) (s : string) : list string :=
  match s with
  | EmptyString => [EmptyString]
  | String c s' =>
      if Ascii.eqb c sep then EmptyString :: split sep s'
      else match split sep s' with
           | h :: t => String c h :: t
           | [] => [String c EmptyString]
           end
  end.

Definition startsWith (p s : string) : bool := String.prefix p s.

Definition endsWith (p s : string) : bool :=
  String.prefix (String.rev p) (String.rev s).

Fixpoint includes (p s : string) : bool :=
  String.prefix p s ||
  match s with
  | EmptyString => false
  | String _ s' => includes p s'
  end.

Definition join (sep : string) (l : list string) : string := String.concat sep l.

Definition is_empty (s : string) : bool :=
  match s with EmptyString => true | _ => false end.

(** *** Numbers *)

Inductive number := NaN | Fin (q : Q).

Definition of_Z (z : Z) : number := Fin (inject_Z z).
Definition of_nat (n : nat) : number := of_Z (Z.of_nat n).

Definition isNaN (n : number) : bool :=
  match n with NaN => true | Fin _ => false end.

(** [a < b], [a > b], [a <= b]: false as soon as one side is [NaN]. *)
Definition lt (a b : number) : bool :=
  match a, b with
  | Fin x, Fin y => negb (Qle_bool y x)
  | _, _ => false
  end.

Definition gt (a b : number) : bool := lt b a.

Definition le (a b : number) : bool :=
  match a, b with
  | Fin x, Fin y => Qle_bool x y
  | _, _ => false
  end.

Definition add (a b : number) : number :=
  match a, b with
  | Fin x, Fin y => Fin (Qred (x + y))
  | _, _ => NaN
  end.

Definition digit_of (radix : nat) (c : ascii) : option Z :=
  let n := nat_of_ascii c in
  let d := if (48 <=? n) && (n <=? 57) then Some (n - 48)
           else if (97 <=? n) && (n <=? 102) then Some (n - 87)
           else if (65 <=? n) && (n <=? 70) then Some (n - 55)
           else None in
  match d with
  | Some k => if k <? radix then Some (Z.of_nat k) else None
  | None => None
  end.

(** Longest run of digits at the head of [s]: its value, its length and
    what follows. *)
Fixpoint digits (radix : nat) (acc : Z) (cnt : nat) (s : string) : Z * nat * string :=
  match s with
  | EmptyString => (acc, cnt, s)
  | String c s' =>
      match digit_of radix c with
      | Some d => digits radix (acc * Z.of_nat radix + d)%Z (S cnt) s'
      | None => (acc, cnt, s)
      end
  end.

Definition scale (m : Z) (e : Z) : Q :=
  if (0 <=? e)%Z then inject_Z (m * 10 ^ e)
  else Qred (Qmake m (Z.to_pos (10 ^ (- e)))).

(** [sign? DecimalDigits] of an exponent part. *)
Definition exponent (s : string) : option (Z * string) :=
  let '(neg, r) :=
    match s with
    | String "-" r => (true, r)
    | String "+" r => (false, r)
    | _ => (false, s)
    end in
  let '(e, n, r') := digits 10 0 0 r in
  if n =? 0 then None else Some (if neg : bool then (- e)%Z else e, r').

(** An unsigned decimal literal at the head of [s]; [dot_only] tells
    whether [5.] and [.5] are literals (they are for [Number], not for
    JSON). *)
Definition decimal (dot_only : bool) (s : string) : option (Q * string) :=
  let '(i, ni, r1) := digits 10 0 0 s in
  let frac :=
    match r1 with
    | String "." r =>
        let '(f, nf, r2) := digits 10 i 0 r in
        if (nf =? 0) && (negb dot_only || (ni =? 0)) then None
        else if (ni =? 0) && negb dot_only then None
        else Some (f, nf, r2)
    | _ => if ni =? 0 then None else Some (i, 0, r1)
    end in
  match frac with
  | None => None
  | Some (m, nf, r2) =>
      match r2 with
      | String c r3 =>
          if Ascii.eqb c "e" || Ascii.eqb c "E" then
            match exponent r3 with
            | Some (e, r4) => Some (scale m (e - Z.of_nat nf), r4)
            | None => None
            end
          else Some (scale m (- Z.of_nat nf), r2)
      | EmptyString => Some (scale m (- Z.of_nat nf), r2)
      end
  end.

Definition radix_literal (radix : nat) (s : string) : number :=
  match digits radix 0 0 s with
  | (v, S _, EmptyString) => of_Z v
  | _ => NaN
  end.

(** [Number(s)] for a string: the StringNumericLiteral grammar. The
    spellings of the infinities are outside the modelled numbers and read
    as [NaN]. *)
Definition StringToNumber (s : string) : number :=
  match trim s with
  | EmptyString => of_Z 0
  | String "0" (String "x" r) | String "0" (String "X" r) => radix_literal 16 r
  | String "0" (String "o" r) | String "0" (String "O" r) => radix_literal 8 r
  | String "0" (String "b" r) | String "0" (String "B" r) => radix_literal 2 r
  | t =>
      let '(neg, u) :=
        match t with
        | String "-" r => (true, r)
        | String "+" r => (false, r)
        | _ => (false, t)
        end in
      match decimal true u with
      | Some (q, EmptyString) => Fin (if neg : bool then Qred (- q) else q)
      | _ => NaN
      end
  end.

Definition Z_to_string (z : Z) : string := NilZero.string_of_int (Z.to_int z).
Definition nat_to_string (n : nat) : string := Z_to_string (Z.of_nat n).

Fixpoint frac_digits (fuel : nat) (r d : Z) : string :=
  match fuel with
  | O => EmptyString
  | S k =>
      if (r =? 0)%Z then EmptyString
      else Z_to_string (r * 10 / d) ++ frac_digits k ((r * 10) mod d) d
  end.

(** [String(n)] for a number, in positional notation. *)
Definition number_to_string (n : number) : string :=
  match n with
  | NaN => "NaN"
  | Fin q =>
      let q' := Qred q in
      let m := Qnum q' in
      let d := Zpos (Qden q') in
      if (d =? 1)%Z then Z_to_string m
      else (if (m <? 0)%Z then "-" else "") ++ Z_to_string (Z.abs m / d) ++ "."
           ++ frac_digits 24 (Z.abs m mod d) d
  end.

(** *** Values *)

Inductive value :=
  | VUndef
  | VNull
  | VBool (b : bool)
  | VNum (n : number)
  | VStr (s : string)
  | VArr (l : list value)
  | VObj (o : list (string * value)).

(** [String(v)] and template interpolation. *)
Fixpoint ToString (v : value) : string :=
  match v with
  | VUndef => "undefined"
  | VNull => "null"
  | VBool b => if b then "true" else "false"
  | VNum n => number_to_string n
  | VStr s => s
  | VArr l =>
      join "," (List.map (fun x => match x with
                                   | VUndef | VNull => ""
                                   | _ => ToString x
                                   end) l)
  | VObj _ => "[object Object]"
  end.

(** [Number(v)]. *)
Definition ToNumber (v : value) : number :=
  match v with
  | VUndef => NaN
  | VNull => of_Z 0
  | VBool b => of_Z (if b then 1 else 0)
  | VNum n => n
  | VStr s => StringToNumber s
  | VArr _ => StringToNumber (ToString v)
  | VObj _ => NaN
  end.

(** Truthiness, as tested by [if (v)], [v || d] and [filter(Boolean)]. *)
Definition truthy (v : value) : bool :=
  match v with
  | VUndef | VNull => false
  | VBool b => b
  | VNum NaN => false
  | VNum (Fin q) => negb (Qeq_bool q 0)
  | VStr s => negb (is_empty s)
  | VArr _ | VObj _ => true
  end.

(** *** Objects

    An object is the list of its own properties in enumeration order:
    array-index keys first, in ascending order, then the other keys in
    creation order. *)

Definition obj (A : Type) := list (string * A).

Definition array_index (k : string) : option Z :=
  match k with
  | EmptyString => None
  | String "0" EmptyString => Some 0%Z
  | String "0" _ => None
  | _ =>
      match digits 10 0 0 k with
      | (v, _, EmptyString) => if (v <=? 4294967294)%Z then Some v else None
      | _ => None
      end
  end.

Fixpoint obj_get {A} (k : string) (o : obj A) : option A :=
  match o with
  | [] => None
  | (k', v) :: o' => if String.eqb k' k then Some v else obj_get k o'
  end.

Definition obj_has {A} (k : string) (o : obj A) : bool :=
  match obj_get k o with Some _ => true | None => false end.

Fixpoint obj_replace {A} (k : string) (v : A) (o : obj A) : obj A :=
  match o with
  | [] => []
  | (k', v') :: o' =>
      if String.eqb k' k then (k', v) :: o' else (k', v') :: obj_replace k v o'
  end.

(** Position of a new property with array index [i]. *)
Fixpoint obj_insert_index {A} (i : Z) (k : string) (v : A) (o : obj A) : obj A :=
  match o with
  | [] => [(k, v)]
  | (k', v') :: o' =>
      match array_index k' with
      | Some j => if (j <? i)%Z then (k', v') :: obj_insert_index i k v o'
                  else (k, v) :: o
      | None => (k, v) :: o
      end
  end.

(** [o[k] = v]. *)
Definition obj_set {A} (k : string) (v : A) (o : obj A) : obj A :=
  if obj_has k o then obj_replace k v o
  else match array_index k with
       | Some i => obj_insert_index i k v o
       | None => (o ++ [(k, v)])%list
       end.

Definition obj_keys {A} (o : obj A) : list string := List.map fst o.

(** *** JSON.parse *)

Definition is_json_ws (c : ascii) : bool :=
  let n := nat_of_ascii c in (n =? 32) || (n =? 9) || (n =? 10) || (n =? 13).

Fixpoint skip_ws (s : string) : string :=
  match s with
  | String c s' => if is_json_ws c then skip_ws s' else s
  | EmptyString => EmptyString
  end.

Definition json_number (s : string) : option (number * string) :=
  let '(neg, u) :=
    match s with
    | String "-" r => (true, r)
    | _ => (false, s)
    end in
  let leading_zero :=
    match u with
    | String "0" (String c _) =>
        match digit_of 10 c with Some _ => true | None => false end
    | _ => false
    end in
  if leading_zero : bool then None
  else match decimal false u with
       | Some (q, r) => Some (Fin (if neg : bool then Qred (- q) else q), r)
       | None => None
       end.

Definition hex4 (s : string) : option (Z * string) :=
  match s with
  | String a (String b (String c (String d r))) =>
      match digit_of 16 a, digit_of 16 b, digit_of 16 c, digit_of 16 d with
      | Some x, Some y, Some z, Some w =>
          Some (((x * 16 + y) * 16 + z) * 16 + w, r)%Z
      | _, _, _, _ => None
      end
  | _ => None
  end.

(** The characters of a string literal after its opening quote. Escapes
    above U+00FF do not fit a byte string and are refused. *)
Fixpoint json_string (s : string) : option (string * string) :=
  match s with
  | EmptyString => None
  | String DQ r => Some (EmptyString, r)
  | String "\" (String e r) =>
      let esc (c : ascii) (r : string) :=
        match json_string r with
        | Some (t, r') => Some (String c t, r')
        | None => None
        end in
      if Ascii.eqb e "u" then
        match hex4 r with
        | Some (n, _) =>
            if (n <? 256)%Z then
              match r with
              | String _ (String _ (String _ (String _ r'))) =>
                  esc (ascii_of_nat (Z.to_nat n)) r'
              | _ => None
              end
            else None
        | None => None
        end
      else if Ascii.eqb e DQ then esc DQ r
      else if Ascii.eqb e "\" then esc "\"%char r
      else if Ascii.eqb e "/" then esc "/"%char r
      else if Ascii.eqb e "b" then esc (ascii_of_nat 8) r
      else if Ascii.eqb e "f" then esc (ascii_of_nat 12) r
      else if Ascii.eqb e "n" then esc (ascii_of_nat 10) r
      else if Ascii.eqb e "r" then esc (ascii_of_nat 13) r
      else if Ascii.eqb e "t" then esc (ascii_of_nat 9) r
      else None
  | String c r =>
      if nat_of_ascii c <? 32 then None
      else match json_string r with
           | Some (t, r') => Some (String c t, r')
           | None => None
           end
  end.

Fixpoint json_value (fuel : nat) (s : string) : option (value * string) :=
  match fuel with
  | O => None
  | S fuel' =>
      match skip_ws s with
      | String "[" r =>
          match skip_ws r with
          | String "]" r' => Some (VArr [], r')
          | r' => match json_elements fuel' r' with
                  | Some (l, r'') => Some (VArr l, r'')
                  | None => None
                  end
          end
      | String "{" r =>
          match skip_ws r with
          | String "}" r' => Some (VObj [], r')
          | r' => match json_members fuel' [] r' with
                  | Some (o, r'') => Some (VObj o, r'')
                  | None => None
                  end
          end
      | String DQ r =>
          match json_string r with
          | Some (t, r') => Some (VStr t, r')
          | None => None
          end
      | String "t" (String "r" (String "u" (String "e" r))) => Some (VBool true, r)
      | String "f" (String "a" (String "l" (String "s" (String "e" r)))) =>
          Some (VBool false, r)
      | String "n" (String "u" (String "l" (String "l" r))) => Some (VNull, r)
      | t => match json_number t with
             | Some (n, r) => Some (VNum n, r)
             | None => None
             end
      end
  end
with json_elements (fuel : nat) (s : string) : option (list value * string) :=
  match fuel with
  | O => None
  | S fuel' =>
      match json_value fuel' s with
      | Some (v, r) =>
          match skip_ws r with
          | String "]" r' => Some ([v], r')
          | String "," r' =>
              match json_elements fuel' r' with
              | Some (l, r'') => Some (v :: l, r'')
              | None => None
              end
          | _ => None
          end
      | None => None
      end
  end
with json_members (fuel : nat) (acc : obj value) (s : string)
    : option (obj value * string) :=
  match fuel with
  | O => None
  | S fuel' =>
      match skip_ws s with
      | String DQ r =>
          match json_string r with
          | Some (k, r1) =>
              match skip_ws r1 with
              | String ":" r2 =>
                  match json_value fuel' r2 with
                  | Some (v, r3) =>
                      let acc' := obj_set k v acc in
                      match skip_ws r3 with
                      | String "}" r4 => Some (acc', r4)
                      | String "," r4 => json_members fuel' acc' r4
                      | _ => None
                      end
                  | None => None
                  end
              | _ => None
              end
          | None => None
          end
      | _ => None
      end
  end.

(** [JSON.parse(text)]: [None] stands for the [SyntaxError] it throws.
    Every call consumes a character, so the length of the text bounds the
    depth of the recursion. *)
Definition JSON_parse (text : string) : option value :=
  match json_value (2 * String.length text + 2) text with
  | Some (v, r) => if is_empty (skip_ws r) then Some v else None
  | None => None
  end.

End JS.

Import JS.

(** ** Data model *)

Inductive EntityType := clients | workers | tasks.

(** The entity as the string it is in the source. *)
Definition entity_name (e : EntityType) : string :=
  match e with
  | clients => "clients"
  | workers => "workers"
  | tasks => "tasks"
  end.

(** [entity.slice(0, -1)] *)
Definition entity_singular (e : EntityType) : string :=
  match e with
  | clients => "client"
  | workers => "worker"
  | tasks => "task"
  end.

Inductive ValidationLevel := error | warning | info.

Record ValidationError := {
  id : string;
  entity : EntityType;
  rowIndex : Z;
  field : string;
  message : string;
  level : ValidationLevel;
  fixed : option bool
}.

Inductive RuleType :=
  coRun | slotRestriction | loadLimit | phaseWindow | patternMatch | precedenceOverride.

(** The fields of a rule that validation reads. *)
Record Rule := {
  rule_id : string;
  rule_type : RuleType;
  rule_tasks : option (list string);
  clientGroup : option string;
  workerGroup : option string;
  active : bool
}.

Definition row := obj value.

Record SheetData := {
  name : string;
  headers : list string;
  jsonData : list row
}.

(** [Record<EntityType, SheetData>], whose keys are enumerated as
    clients, workers, tasks. *)
Record Sheets := {
  sheet_clients : SheetData;
  sheet_workers : SheetData;
  sheet_tasks : SheetData
}.

Definition sheet_of (e : EntityType) (s : Sheets) : SheetData :=
  match e with
  | clients => sheet_clients s
  | workers => sheet_workers s
  | tasks => sheet_tasks s
  end.

Definition entities : list EntityType := [clients; workers; tasks].

Definition REQUIRED_COLUMNS (e : EntityType) : list string :=
  match e with
  | clients => ["id"; "priorityLevel"]
  | workers => ["id"; "availableSlots"; "maxLoadPerPhase"]
  | tasks => ["id"; "duration"; "requiredSkills"]
  end.

#[global] Instance EntityType_eq_dec : EqDecision EntityType.
Proof. solve_decision. Defined.

#[global] Instance ValidationLevel_eq_dec : EqDecision ValidationLevel.
Proof. solve_decision. Defined.

#[global] Instance ValidationError_eq_dec : EqDecision ValidationError.
Proof. solve_decision. Defined.

(** ** Field normalizer *)

Definition is_alnum (c : ascii) : bool :=
  let n := nat_of_ascii c in
  ((97 <=? n) && (n <=? 122)) || ((48 <=? n) && (n <=? 57)).

(** [name.toLowerCase().replace(/[^a-z0-9]/g, '')] *)
Definition normalizeFieldName (name : string) : string :=
  str_filter is_alnum (toLowerCase name).

(** The inner [for (const key in row)] of [getNormalizedValue]. *)
Fixpoint find_key (normalizedField : string) (r : row) : option value :=
  match r with
  | [] => None
  | (key, v) :: r' =>
      if String.eqb (normalizeFieldName key) normalizedField then Some v
      else find_key normalizedField r'
  end.

Fixpoint getNormalizedValue (r : row) (fieldVariations : list string) : value :=
  match fieldVariations with
  | [] => VUndef
  | field :: rest =>
      match find_key (normalizeFieldName field) r with
      | Some v => v
      | None => getNormalizedValue r rest
      end
  end.

(** ** Scalar parsers *)

(** [if (error)] on a [string | null]. *)
Definition is_set (e : option string) : bool :=
  match e with
  | Some m => negb (is_empty m)
  | None => false
  end.

Definition bracketed (l r t : string) : bool := startsWith l t && endsWith r t.

Definition parseArrayString (v : value) : list string * option string :=
  match v with
  | VArr l => (List.map ToString l, None)
  | VStr s =>
      let trimmed := trim s in
      if is_empty trimmed then ([], None)
      else if bracketed "[" "]" trimmed then
        match JSON_parse trimmed with
        | Some (VArr parsed) => (List.map ToString parsed, None)
        | Some _ => ([], Some "Invalid array format.")
        | None => ([], Some "Malformed JSON array.")
        end
      else
        (List.filter (fun s => negb (is_empty s))
           (List.map trim
              (split "," (str_map (fun c => if Ascii.eqb c (ascii_of_nat 10)
                                            then "," else c)%char trimmed))),
         None)
  | _ => ([], None)
  end.

Definition parseJsonString (v : value) : value * option string :=
  match v with
  | VObj _ => (v, None)
  | VStr s =>
      let trimmed := trim s in
      if is_empty trimmed then (VNull, None)
      else if negb (startsWith "{" trimmed) || negb (endsWith "}" trimmed) then
        (VNull, Some ("Value must be a valid JSON object (e.g., {" ++ quot ++ "key" ++ quot
                     ++ ":" ++ quot ++ "value" ++ quot ++ "})."))
      else
        match JSON_parse trimmed with
        | Some (VObj o) => (VObj o, None)
        | Some _ => (VNull, Some "Value is not a valid JSON object.")
        | None => (VNull, Some "Malformed JSON object.")
        end
  | _ => (VNull, None)
  end.

(** [for (let i = start; i <= end; i++) phases.push(i)], [fuel] bounding
    the number of iterations. *)
Fixpoint range_loop (fuel : nat) (i e : number) : list number :=
  match fuel with
  | O => []
  | S k => if le i e then i :: range_loop k (add i (of_Z 1)) e else []
  end.

(** The number of iterations the loop of a range makes. *)
Definition range_size (s e : number) : nat :=
  match s, e with
  | Fin x, Fin y => Z.to_nat (Qfloor (y - x) + 1)
  | _, _ => 0
  end.

Definition invalid_range : string :=
  "Invalid range format (e.g., " ++ quot ++ "1-5" ++ quot ++ ").".

Definition non_numeric_msg : string := "Contains non-numeric values or invalid format.".

(** The body of [parsed.forEach] on the phases and the error so far. *)
Definition arrayStep (acc : list number * option string) (item : value)
    : list number * option string :=
  let '(phases, err) := acc in
  let num := ToNumber item in
  if negb (isNaN num) then ((phases ++ [num])%list, err)
  else (phases, Some "Contains non-numeric values.").

(** The body of [trimmed.split(',').forEach]. *)
Definition commaStep (acc : list number * option string) (item : string)
    : list number * option string :=
  let '(phases, err) := acc in
  let num := StringToNumber (trim item) in
  if negb (isNaN num) && negb (is_empty (trim item))
  then ((phases ++ [num])%list, err)
  else if negb (is_empty (trim item))
  then (phases, Some non_numeric_msg)
  else (phases, err).

Definition parsePhaseString (v : value) : list number * option string :=
  match v with
  | VArr l => (List.filter (fun n => negb (isNaN n)) (List.map ToNumber l), None)
  | VStr s =>
      let trimmed := trim s in
      if is_empty trimmed then ([], None)
      else
        let '(phases, err) :=
          if bracketed "[" "]" trimmed then
            match JSON_parse trimmed with
            | Some (VArr parsed) =>
                fold_left arrayStep parsed ([], None)
            | Some _ => ([], Some "Invalid array format.")
            | None => ([], Some "Malformed JSON array.")
            end
          else if includes "-" trimmed then
            match List.map trim (split "-" trimmed) with
            | [p0; p1] =>
                let start := StringToNumber p0 in
                let end_ := StringToNumber p1 in
                if negb (isNaN start) && negb (isNaN end_) && le start end_ then
                  (range_loop (range_size start end_) start end_, None)
                else ([], Some invalid_range)
            | _ => ([], Some invalid_range)
            end
          else
            fold_left commaStep (split "," trimmed) ([], None) in
        if is_set err then ([], err) else (phases, None)
  | _ => ([], None)
  end.

(** ** Diagnostics *)

(** The template [`${entity}-${rowIndex}-${field}-${message}`]. *)
Definition error_id (e : EntityType) (rowIndex : Z) (field message : string) : string :=
  entity_name e ++ "-" ++ Z_to_string rowIndex ++ "-" ++ field ++ "-" ++ message.

(** [createError] of [validateAllData]; the one of [validateRow] is this
    one at the row's entity and index. *)
Definition createError (e : EntityType) (rowIndex : Z) (field message : string)
    (level : ValidationLevel) : ValidationError :=
  {| id := error_id e rowIndex field message;
     entity := e; rowIndex := rowIndex; field := field; message := message;
     level := level; fixed := None |}.

Definition is_undefined (v : value) : bool :=
  match v with VUndef => true | _ => false end.

Definition is_null (v : value) : bool :=
  match v with VNull => true | _ => false end.

(** ** Row validator *)

Section ValidateRow.

Variables (entity : EntityType) (r : row) (rowIndex : nat) (allSheets : Sheets).

Let err (field message : string) : ValidationError :=
  createError entity (Z.of_nat rowIndex) field message error.

(** Every column whose normalized name contains [json] must hold an
    object. *)
Definition jsonColumns : list ValidationError :=
  flat_map (fun key =>
              if includes "json" (normalizeFieldName key) then
                let e := snd (parseJsonString (default VUndef (obj_get key r))) in
                if is_set e then [err key (default EmptyString e)] else []
              else [])
           (obj_keys r).

(** The bound check of both priority fields. *)
Definition priorityCheck (aliases : list string) (field : string) : list ValidationError :=
  let priority := getNormalizedValue r aliases in
  if negb (is_undefined priority)
     && (lt (ToNumber priority) (of_Z 1) || gt (ToNumber priority) (of_Z 5))
  then [err field "Priority must be 1-5."]
  else [].

Definition taskExists (taskId : string) : bool :=
  existsb (fun t => String.eqb (ToString (getNormalizedValue t ["id"; "taskId"])) taskId)
          (jsonData (sheet_tasks allSheets)).

Definition requestedTasksCheck : list ValidationError :=
  let '(requestedTasks, taskError) :=
    parseArrayString (getNormalizedValue r ["requestedTasks"; "requestedTaskIDs"]) in
  if is_set taskError then [err "requestedTasks" (default EmptyString taskError)]
  else flat_map (fun taskId =>
                   if negb (taskExists taskId)
                   then [err "requestedTasks"
                             ("Task ID " ++ quot ++ taskId ++ quot ++ " not found.")]
                   else [])
                requestedTasks.

Definition workerChecks : list ValidationError :=
  let '(availableSlots, slotError) :=
    parseArrayString (getNormalizedValue r ["availableSlots"; "slots"]) in
  (if is_set slotError then [err "availableSlots" (default EmptyString slotError)]
   else if existsb (fun s => isNaN (StringToNumber s)) availableSlots
   then [err "availableSlots" "Must be a list of numbers."]
   else [])
  ++
  (let maxLoad := getNormalizedValue r ["maxLoad"; "maxLoadPerPhase"] in
   if negb (is_undefined maxLoad)
      && gt (ToNumber maxLoad) (of_nat (length availableSlots))
   then [err "maxLoadPerPhase"
             ("MaxLoad (" ++ ToString maxLoad ++ ") > available slots ("
              ++ nat_to_string (length availableSlots) ++ ").")]
   else [])
  ++
  (let skillError := snd (parseArrayString (getNormalizedValue r ["skills"; "workerSkills"])) in
   if is_set skillError then [err "skills" (default EmptyString skillError)] else []).

Definition durationCheck : list ValidationError :=
  let duration := getNormalizedValue r ["duration"; "taskDuration"] in
  if negb (is_undefined duration) && lt (ToNumber duration) (of_Z 1)
  then [err "duration" "Duration must be >= 1."]
  else [].

Definition preferredPhasesCheck : list ValidationError :=
  let '(preferredPhases, phaseError) :=
    parsePhaseString (getNormalizedValue r ["preferredPhases"; "phases"]) in
  if is_set phaseError then [err "preferredPhases" (default EmptyString phaseError)]
  else if existsb (fun p => lt p (of_Z 1)) preferredPhases
  then [err "preferredPhases" "Phases must be positive integers."]
  else [].

Definition qualifiedAndAvailable (requiredSkills : list string) (w : row) : bool :=
  let workerSkills := fst (parseArrayString (getNormalizedValue w ["skills"; "workerSkills"])) in
  let availableSlots := fst (parseArrayString (getNormalizedValue w ["availableSlots"; "slots"])) in
  forallb (fun s => existsb (String.eqb s) workerSkills) requiredSkills
  && (0 <? length availableSlots).

Definition maxConcurrentCheck : list ValidationError :=
  let maxConcurrent := getNormalizedValue r ["maxConcurrent"; "maxConcurrentTasks"] in
  if truthy maxConcurrent then
    let '(requiredSkills, skillError) :=
      parseArrayString (getNormalizedValue r ["skills"; "requiredSkills"]) in
    if is_set skillError then [err "skills" (default EmptyString skillError)]
    else
      let qualifiedAndAvailableWorkers :=
        length (List.filter (qualifiedAndAvailable requiredSkills)
                            (jsonData (sheet_workers allSheets))) in
      if gt (ToNumber maxConcurrent) (of_nat qualifiedAndAvailableWorkers)
      then [err "maxConcurrent"
                ("MaxConcurrent (" ++ ToString maxConcurrent
                 ++ ") > qualified, available workers ("
                 ++ nat_to_string qualifiedAndAvailableWorkers ++ ").")]
      else []
  else [].

Definition validateRow : list ValidationError :=
  jsonColumns ++
  match entity with
  | clients => priorityCheck ["priorityLevel"; "priority"] "priorityLevel"
               ++ requestedTasksCheck
  | workers => workerChecks
  | tasks => priorityCheck ["priority"; "priorityLevel"] "priority"
             ++ durationCheck ++ preferredPhasesCheck ++ maxConcurrentCheck
  end.

End ValidateRow.

(** ** Dataset validator *)

(** *** Schema check *)

Definition schemaCheck (currentSheets : Sheets) : list ValidationError :=
  flat_map (fun e =>
    let sheet := sheet_of e currentSheets in
    if 0 <? length (jsonData sheet) then
      let hs := List.map normalizeFieldName (headers sheet) in
      let missing :=
        List.filter (fun col => negb (existsb (String.eqb (normalizeFieldName col)) hs))
                    (REQUIRED_COLUMNS e) in
      if 0 <? length missing
      then [createError e (-1) "File"
              ("Missing required columns: " ++ join ", " missing) error]
      else []
    else []) entities.

(** *** Duplicate-id check *)

Definition idAliases (e : EntityType) : list string :=
  ["id"; entity_singular e ++ "Id"; entity_singular e ++ "ID"; entity_singular e ++ "_id"].

(** [id !== undefined && id !== null && String(id).trim() !== ''] *)
Definition has_id (v : value) : bool :=
  negb (is_undefined v) && negb (is_null v) && negb (is_empty (trim (ToString v))).

Definition duplicateMessage (v : value) (first : nat) : string :=
  "Duplicate ID " ++ quot ++ ToString v ++ quot ++ " also found at row "
  ++ nat_to_string (first + 1).

(** The [forEach] over the rows of one entity, from row [index] on, with
    the map [ids] of the identifiers registered so far. *)
Fixpoint duplicateLoop (e : EntityType) (rows : list row) (index : nat)
    (ids : gmap string nat) : list ValidationError :=
  match rows with
  | [] => []
  | r :: rest =>
      let v := getNormalizedValue r (idAliases e) in
      if has_id v then
        match ids !! ToString v with
        | Some first =>
            createError e (Z.of_nat index) "id" (duplicateMessage v first) error
            :: duplicateLoop e rest (S index) ids
        | None => duplicateLoop e rest (S index) (<[ToString v := index]> ids)
        end
      else duplicateLoop e rest (S index) ids
  end.

Definition duplicateCheck (currentSheets : Sheets) : list ValidationError :=
  flat_map (fun e => duplicateLoop e (jsonData (sheet_of e currentSheets)) 0 ∅) entities.

(** *** Row validation *)

Definition rowValidation (currentSheets : Sheets) : list ValidationError :=
  flat_map (fun e =>
    concat (imap (fun rowIndex r => validateRow e r rowIndex currentSheets)
                 (jsonData (sheet_of e currentSheets)))) entities.

(** *** Phase-capacity accounting *)

(** [x || 0] on what a [Record<number, number>] holds at a key. *)
Definition or_zero (x : option number) : number :=
  match x with
  | Some n => if truthy (VNum n) then n else of_Z 0
  | None => of_Z 0
  end.

Definition countSlot (acc : obj number) (slot : string) : obj number :=
  let slotNum := StringToNumber slot in
  if negb (isNaN slotNum) then
    let k := number_to_string slotNum in
    obj_set k (add (or_zero (obj_get k acc)) (of_Z 1)) acc
  else acc.

Definition phaseSlots (currentSheets : Sheets) : obj number :=
  fold_left (fun acc worker =>
               fold_left countSlot
                 (fst (parseArrayString (getNormalizedValue worker ["availableSlots"; "slots"])))
                 acc)
            (jsonData (sheet_workers currentSheets)) [].

(** [getNormalizedValue(task, ['duration', 'taskDuration']) || 1] *)
Definition taskDuration (task : row) : value :=
  let d := getNormalizedValue task ["duration"; "taskDuration"] in
  if truthy d then d else VNum (of_Z 1).

Definition countTask (acc : obj number) (task : row) : obj number :=
  let duration := taskDuration task in
  let phase := getNormalizedValue task ["phase"; "taskPhase"] in
  if negb (is_undefined phase) then
    let k := ToString phase in
    obj_set k (add (or_zero (obj_get k acc)) (ToNumber duration)) acc
  else acc.

Definition phaseRequirements (currentSheets : Sheets) : obj number :=
  fold_left countTask (jsonData (sheet_tasks currentSheets)) [].

Definition availableAt (slots : obj number) (phase : string) : number :=
  or_zero (obj_get (number_to_string (StringToNumber phase)) slots).

Definition saturationMessage (phase : string) (required available : number) : string :=
  "Phase " ++ phase ++ " overloaded: requires " ++ number_to_string required
  ++ " slots, but only " ++ number_to_string available ++ " are available.".

Definition phaseSaturation (currentSheets : Sheets) : list ValidationError :=
  let slots := phaseSlots currentSheets in
  flat_map (fun '(phase, required) =>
              let available := availableAt slots phase in
              if gt required available
              then [createError tasks (-1) "Phase Saturation"
                      (saturationMessage phase required available) error]
              else [])
           (phaseRequirements currentSheets).

(** *** Skill coverage *)

(** [new Set(l)], in insertion order. *)
Definition new_Set (l : list string) : list string :=
  fold_left (fun acc x => if existsb (String.eqb x) acc then acc else acc ++ [x])%list l [].

Definition skillCoverage (currentSheets : Sheets) : list ValidationError :=
  let allRequiredSkills :=
    new_Set (flat_map (fun t => fst (parseArrayString (getNormalizedValue t ["skills"; "requiredSkills"])))
                      (jsonData (sheet_tasks currentSheets))) in
  let allWorkerSkills :=
    new_Set (flat_map (fun w => fst (parseArrayString (getNormalizedValue w ["skills"; "workerSkills"])))
                      (jsonData (sheet_workers currentSheets))) in
  flat_map (fun skill =>
              if negb (existsb (String.eqb skill) allWorkerSkills)
              then [createError tasks (-1) "Skill Coverage"
                      ("Skill " ++ quot ++ skill ++ quot
                       ++ " is required by tasks but not provided by any worker.") warning]
              else [])
           allRequiredSkills.

(** ** Rule engine *)

(** *** Co-run cycle detection *)

Definition is_coRun (r : Rule) : bool :=
  match rule_type r with coRun => true | _ => false end.

Definition is_slotRestriction (r : Rule) : bool :=
  match rule_type r with slotRestriction => true | _ => false end.

Definition findTask (rows : list row) (taskId : string) : option row :=
  List.find (fun t => String.eqb (ToString (getNormalizedValue t ["id"; "taskId"])) taskId) rows.

(** The dependencies of a row that are tasks of the rule. *)
Definition filteredDeps (ruleTasks : list string) (task : row) : list string :=
  List.filter (fun d => existsb (String.eqb d) ruleTasks)
    (fst (parseArrayString (getNormalizedValue task ["dependencies"; "dependsOn"]))).

Definition buildGraph (rows : list row) (ruleTasks : list string) : gmap string (list string) :=
  fold_left (fun graph taskId =>
               match findTask rows taskId with
               | Some task => <[taskId := filteredDeps ruleTasks task]> graph
               | None => graph
               end)
            ruleTasks ∅.

(** The sets [visited] and [recursionStack] the search updates. *)
Definition marks : Type := gset string * gset string.

(** The [for (const depId of dependencies)] of [detectCycle(taskId)],
    [rec] being the recursive call; after the last dependency the task
    leaves the recursion stack. *)
Definition depsLoop (rec : string -> marks -> option (bool * marks)) (taskId : string)
    : list string -> marks -> option (bool * marks) :=
  fix loop (dependencies : list string) (m : marks) : option (bool * marks) :=
    match dependencies with
    | [] => Some (false, (m.1, m.2 ∖ {[taskId]}))
    | depId :: rest =>
        if decide (depId ∉ m.1) then
          match rec depId m with
          | Some (true, m') => Some (true, m')
          | Some (false, m') => loop rest m'
          | None => None
          end
        else if decide (depId ∈ m.2) then Some (true, m)
        else loop rest m
    end.

(** [detectCycle]: [None] when [fuel], which bounds the depth of the
    recursion, runs out. *)
Fixpoint detectCycle (fuel : nat) (graph : gmap string (list string))
    (taskId : string) (m : marks) : option (bool * marks) :=
  match fuel with
  | O => None
  | S fuel' =>
      depsLoop (detectCycle fuel' graph) taskId
        (default [] (graph !! taskId)) ({[taskId]} ∪ m.1, {[taskId]} ∪ m.2)
  end.

(** [for (const taskId of rule.tasks)], leaving at the first cycle. *)
Fixpoint cycleLoop (fuel : nat) (graph : gmap string (list string))
    (ts : list string) (m : marks) : option bool :=
  match ts with
  | [] => Some false
  | taskId :: rest =>
      if decide (taskId ∉ m.1) then
        match detectCycle fuel graph taskId m with
        | Some (true, _) => Some true
        | Some (false, m') => cycleLoop fuel graph rest m'
        | None => None
        end
      else cycleLoop fuel graph rest m
  end.

Definition coRunSelected (r : Rule) : bool :=
  is_coRun r && active r &&
  match rule_tasks r with
  | Some ts => 1 <? length ts
  | None => false
  end.

Definition circularError (ts : list string) : ValidationError :=
  createError tasks (-1) "Rules"
    ("Circular dependency in co-run rule: " ++ join ", " ts) error.

(** What one selected co-run rule adds to the diagnostics. The search
    never goes deeper than the number of tasks of the rule. *)
Definition coRunRule (rows : list row) (ts : list string) : list ValidationError :=
  match cycleLoop (S (length ts)) (buildGraph rows ts) ts (∅, ∅) with
  | Some true => [circularError ts]
  | _ => []
  end.

Definition coRunCheck (rules : list Rule) (currentSheets : Sheets) : list ValidationError :=
  flat_map (fun rule => coRunRule (jsonData (sheet_tasks currentSheets))
                                  (default [] (rule_tasks rule)))
           (List.filter coRunSelected rules).

(** *** Slot-restriction referential check *)

Definition groupCheck (e : EntityType) (aliases : list string) (what : string)
    (group : option string) (rows : list row) : list ValidationError :=
  match group with
  | Some g =>
      if negb (is_empty g) then
        if negb (existsb (fun r => String.eqb (ToString (getNormalizedValue r aliases)) g) rows)
        then [createError e (-1) "Rules"
                ("Slot Restriction rule references non-existent " ++ what ++ " group: "
                 ++ g ++ ".") warning]
        else []
      else []
  | None => []
  end.

Definition slotRestrictionCheck (rules : list Rule) (currentSheets : Sheets)
    : list ValidationError :=
  flat_map (fun rule =>
              (groupCheck clients ["groupTag"; "clientGroup"] "client" (clientGroup rule)
                          (jsonData (sheet_clients currentSheets))
               ++ groupCheck workers ["workerGroup"; "groupTag"] "worker" (workerGroup rule)
                             (jsonData (sheet_workers currentSheets)))%list)
           (List.filter (fun r => is_slotRestriction r && active r) rules).

(** ** The dashboard state and its operations *)

(** The diagnostics one pass of [validateAllData] accumulates in
    [allErrors], in the order they are pushed. *)
Definition allErrors (rules : list Rule) (currentSheets : Sheets) : list ValidationError :=
  schemaCheck currentSheets
  ++ duplicateCheck currentSheets
  ++ rowValidation currentSheets
  ++ phaseSaturation currentSheets
  ++ skillCoverage currentSheets
  ++ coRunCheck rules currentSheets
  ++ slotRestrictionCheck rules currentSheets.

(** The part of the component state that validation reads and writes. *)
Record Dashboard := {
  sheets : Sheets;
  rules : list Rule;
  validationErrors : list ValidationError;
  validationProgress : nat
}.

(** [validateAllData(currentSheets)]: replaces the diagnostics of the
    state and leaves the progress at 100. *)
Definition validateAllData (currentSheets : Sheets) (st : Dashboard) : Dashboard :=
  {| sheets := sheets st;
     rules := rules st;
     validationErrors := allErrors (rules st) currentSheets;
     validationProgress := 100 |}.

Definition markAsFixed (errorId : string) (st : Dashboard) : Dashboard :=
  {| sheets := sheets st;
     rules := rules st;
     validationErrors :=
       List.map (fun err => if String.eqb (id err) errorId
                            then {| id := id err; entity := entity err;
                                    rowIndex := rowIndex err; field := field err;
                                    message := message err; level := level err;
                                    fixed := Some true |}
                            else err)
                (validationErrors st);
     validationProgress := validationProgress st |}.

Definition set_sheet (e : EntityType) (d : SheetData) (s : Sheets) : Sheets :=
  match e with
  | clients => {| sheet_clients := d; sheet_workers := sheet_workers s; sheet_tasks := sheet_tasks s |}
  | workers => {| sheet_clients := sheet_clients s; sheet_workers := d; sheet_tasks := sheet_tasks s |}
  | tasks => {| sheet_clients := sheet_clients s; sheet_workers := sheet_workers s; sheet_tasks := d |}
  end.

(** [Object.keys(item).find(k => ...) || header] *)
Definition keyToUpdate (item : row) (header : string) : string :=
  match List.find (fun k => String.eqb (normalizeFieldName k) (normalizeFieldName header))
                  (obj_keys item) with
  | Some k => if is_empty k then header else k
  | None => header
  end.

(** The sheets after the edit of one cell; [None] when there is no row
    at [rowIndex] (the source then fails on [Object.keys(undefined)]). *)
Definition editCell (s : Sheets) (e : EntityType) (rowIndex : nat) (header value : string)
    : option Sheets :=
  let sheet := sheet_of e s in
  match jsonData sheet !! rowIndex with
  | Some item =>
      let item' := obj_set (keyToUpdate item header) (VStr value) item in
      Some (set_sheet e {| name := name sheet; headers := headers sheet;
                           jsonData := <[rowIndex := item']> (jsonData sheet) |} s)
  | None => None
  end.

Definition handleCellEdit (e : EntityType) (rowIndex : nat) (header value : string)
    (st : Dashboard) : option Dashboard :=
  match editCell (sheets st) e rowIndex header value with
  | Some newSheets =>
      Some (validateAllData newSheets
              {| sheets := newSheets; rules := rules st;
                 validationErrors := validationErrors st;
                 validationProgress := validationProgress st |})
  | None => None
  end.

(** * Properties *)

Local Open Scope list_scope.

(** ** Scalar parsers *)

Lemma is_set_Some_true (e : option string) :
  is_set e = true -> exists m, e = Some m /\ is_empty m = false.
Proof.
  destruct e as [m|]; simpl; [|discriminate].
  intros H. exists m. split; [reflexivity|]. now destruct (is_empty m).
Qed.

(** When an error is reported the phase list is empty, whatever the
    input. *)
Lemma parsePhaseString_no_partial (v : value) :
  is_set (snd (parsePhaseString v)) = true -> fst (parsePhaseString v) = [].
Proof.
  destruct v as [| | b | n | s | l | o]; simpl; try discriminate.
  destruct (is_empty (trim s)); simpl; [discriminate|].
  match goal with |- context [let '(_, _) := ?e in _] => destruct e as [phases err] end.
  destruct (is_set err); simpl; [reflexivity | discriminate].
Qed.

(** A token that is not blank and does not read as a number. *)
Definition non_numeric (item : string) : bool :=
  negb (is_empty (trim item)) && isNaN (StringToNumber (trim item)).

Lemma commaStep_keeps_error (items : list string) (phases : list number) :
  snd (fold_left commaStep items (phases, Some non_numeric_msg)) = Some non_numeric_msg.
Proof.
  revert phases. induction items as [|item items IH]; intros phases; simpl; [reflexivity|].
  destruct (negb (isNaN _) && negb (is_empty (trim item)))%bool; [apply IH|].
  destruct (negb (is_empty (trim item))); apply IH.
Qed.

Lemma commaStep_error (items : list string) (acc : list number * option string) :
  existsb non_numeric items = true ->
  snd (fold_left commaStep items acc) = Some non_numeric_msg.
Proof.
  revert acc. induction items as [|item items IH]; intros [phases err]; simpl; [discriminate|].
  unfold non_numeric at 1.
  destruct (is_empty (trim item)) eqn:He; simpl.
  - rewrite andb_false_r. simpl. apply IH.
  - destruct (isNaN (StringToNumber (trim item))) eqn:Hn; simpl.
    + intros _. apply commaStep_keeps_error.
    + apply IH.
Qed.

Lemma parsePhaseString_comma_eq (s : string) :
  is_empty (trim s) = false ->
  bracketed "[" "]" (trim s) = false ->
  includes "-" (trim s) = false ->
  parsePhaseString (VStr s) =
    let '(phases, err) := fold_left commaStep (split "," (trim s)) ([], None) in
    if is_set err then ([], err) else (phases, None).
Proof.
  intros H1 H2 H3. unfold parsePhaseString. rewrite H1, H2, H3. reflexivity.
Qed.

(** The two endpoints of a range are numbers in increasing order. *)
Definition range_ok (p0 p1 : string) : bool :=
  negb (isNaN (StringToNumber p0)) && negb (isNaN (StringToNumber p1))
  && le (StringToNumber p0) (StringToNumber p1).

(** The text reads as a start-end range the parser accepts. *)
Definition well_formed_range (t : string) : bool :=
  match List.map trim (split "-" t) with
  | [p0; p1] => range_ok p0 p1
  | _ => false
  end.

Lemma range_ok_gt (p0 p1 : string) :
  isNaN (StringToNumber p0) = false -> isNaN (StringToNumber p1) = false ->
  gt (StringToNumber p0) (StringToNumber p1) = true -> range_ok p0 p1 = false.
Proof.
  unfold range_ok, gt, lt, le. intros H0 H1.
  destruct (StringToNumber p0), (StringToNumber p1); try discriminate; simpl.
  now destruct (Qle_bool q q0).
Qed.

Lemma parsePhaseString_range_invalid (s : string) :
  is_empty (trim s) = false ->
  bracketed "[" "]" (trim s) = false ->
  includes "-" (trim s) = true ->
  well_formed_range (trim s) = false ->
  parsePhaseString (VStr s) = ([], Some invalid_range).
Proof.
  intros H1 H2 H3 H4. unfold parsePhaseString. rewrite H1, H2, H3.
  unfold well_formed_range, range_ok in H4.
  destruct (List.map trim (split "-" (trim s))) as [|p0 [|p1 [|p2 l]]]; try reflexivity.
  rewrite H4. reflexivity.
Qed.


Definition object_error : string :=
  "Value must be a valid JSON object (e.g., {" ++ quot ++ "key" ++ quot
  ++ ":" ++ quot ++ "value" ++ quot ++ "}).".

(** The text is a JSON object literal: enclosed in braces and read by
    [JSON.parse] as an object. *)
Definition is_object_literal (t : string) : bool :=
  bracketed "{" "}" t &&
  match JSON_parse t with
  | Some (VObj _) => true
  | _ => false
  end.

Lemma parseArrayString_error_empty (v : value) :
  is_set (snd (parseArrayString v)) = true -> fst (parseArrayString v) = [].
Proof.
  destruct v as [| | b | n | s | l | o]; simpl; try discriminate.
  destruct (is_empty (trim s)); simpl; [discriminate|].
  destruct (bracketed "[" "]" (trim s)); simpl; [|discriminate].
  destruct (JSON_parse (trim s)) as [[| | | | | |]|]; simpl; try reflexivity; discriminate.
Qed.

Lemma parseJsonString_error_null (v : value) :
  is_set (snd (parseJsonString v)) = true -> fst (parseJsonString v) = VNull.
Proof.
  destruct v as [| | b | n | s | l | o]; simpl; try discriminate.
  destruct (is_empty (trim s)); simpl; [discriminate|].
  destruct (negb (startsWith "{" (trim s)) || negb (endsWith "}" (trim s)))%bool;
    simpl; [reflexivity|].
  destruct (JSON_parse (trim s)) as [[| | | | | |]|]; simpl; try reflexivity; discriminate.
Qed.

Lemma parseJsonString_blank (s : string) :
  is_empty (trim s) = true -> parseJsonString (VStr s) = (VNull, None).
Proof. intros H. unfold parseJsonString. now rewrite H. Qed.

Lemma parseJsonString_not_object (s : string) :
  is_empty (trim s) = false -> is_object_literal (trim s) = false ->
  exists m, parseJsonString (VStr s) = (VNull, Some m) /\ is_empty m = false
    /\ (bracketed "{" "}" (trim s) = false -> m = object_error)
    /\ (bracketed "{" "}" (trim s) = true -> JSON_parse (trim s) = None ->
        m = "Malformed JSON object.").
Proof.
  intros H1 H2. unfold parseJsonString, is_object_literal, bracketed in *. rewrite H1.
  destruct (startsWith "{" (trim s)); simpl in *.
  2:{ exists object_error. repeat split; discriminate. }
  destruct (endsWith "}" (trim s)); simpl in *.
  2:{ exists object_error. repeat split; discriminate. }
  destruct (JSON_parse (trim s)) as [[| | | | | |]|]; try discriminate;
    eexists; (split; [reflexivity|]); repeat split; discriminate.
Qed.

Lemma parseJsonString_object (s : string) :
  is_object_literal (trim s) = true ->
  exists o, JSON_parse (trim s) = Some (VObj o) /\ parseJsonString (VStr s) = (VObj o, None).
Proof.
  unfold is_object_literal, bracketed, parseJsonString. intros H.
  apply andb_prop in H as [H1 H2]. apply andb_prop in H1 as [Ha Hb].
  destruct (JSON_parse (trim s)) as [[| | | | | |o]|]; try discriminate.
  exists o. split; [reflexivity|]. rewrite Ha, Hb. simpl.
  destruct (trim s); [discriminate Ha | reflexivity].
Qed.





(** ** Row validator: the bounds of priority and duration *)

Definition priorityError (e : EntityType) (rowIndex : nat) (field : string) : ValidationError :=
  createError e (Z.of_nat rowIndex) field "Priority must be 1-5." error.

Definition durationError (e : EntityType) (rowIndex : nat) : ValidationError :=
  createError e (Z.of_nat rowIndex) "duration" "Duration must be >= 1." error.

Lemma lt_Fin (x y : Q) : lt (Fin x) (Fin y) = true <-> (x < y)%Q.
Proof.
  unfold lt. rewrite negb_true_iff. split.
  - intros H. apply Qnot_le_lt. intros Hle. apply Qle_bool_iff in Hle. congruence.
  - intros H. destruct (Qle_bool y x) eqn:E; [|reflexivity].
    apply Qle_bool_iff in E. exfalso. exact (Qlt_not_le _ _ H E).
Qed.

Lemma lt_Fin_false (x y : Q) : lt (Fin x) (Fin y) = false <-> (y <= x)%Q.
Proof.
  unfold lt. rewrite negb_false_iff. apply Qle_bool_iff.
Qed.

Section Bounds.

Variables (e : EntityType) (r : row) (rowIndex : nat).

(** A value that reads as a number below 1 or above 5 is reported. *)
Lemma priorityCheck_outside (aliases : list string) (field : string) (q : Q) :
  getNormalizedValue r aliases <> VUndef ->
  ToNumber (getNormalizedValue r aliases) = Fin q ->
  (q < 1 \/ 5 < q)%Q ->
  priorityCheck e r rowIndex aliases field = [priorityError e rowIndex field].
Proof.
  intros Hu Hq Hr. unfold priorityCheck. rewrite Hq.
  assert (is_undefined (getNormalizedValue r aliases) = false) as ->
    by (destruct (getNormalizedValue r aliases) eqn:E; try reflexivity; congruence).
  assert ((lt (Fin q) (of_Z 1) || gt (Fin q) (of_Z 5))%bool = true) as ->; [|reflexivity].
  apply orb_true_iff. unfold gt, of_Z. rewrite !lt_Fin. exact Hr.
Qed.

(** A value that reads as a number from 1 to 5 is not. *)
Lemma priorityCheck_inside (aliases : list string) (field : string) (q : Q) :
  ToNumber (getNormalizedValue r aliases) = Fin q ->
  (1 <= q <= 5)%Q ->
  priorityCheck e r rowIndex aliases field = [].
Proof.
  intros Hq [H1 H5]. unfold priorityCheck. rewrite Hq.
  assert ((lt (Fin q) (of_Z 1) || gt (Fin q) (of_Z 5))%bool = false) as ->.
  { apply orb_false_iff. unfold gt, of_Z. rewrite !lt_Fin_false. split; assumption. }
  now rewrite andb_false_r.
Qed.

(** A value that reads as NaN passes both comparisons. *)
Lemma priorityCheck_NaN (aliases : list string) (field : string) :
  ToNumber (getNormalizedValue r aliases) = NaN ->
  priorityCheck e r rowIndex aliases field = [].
Proof.
  intros Hq. unfold priorityCheck. rewrite Hq. simpl. now rewrite andb_false_r.
Qed.

Lemma durationCheck_below (q : Q) :
  getNormalizedValue r ["duration"; "taskDuration"] <> VUndef ->
  ToNumber (getNormalizedValue r ["duration"; "taskDuration"]) = Fin q ->
  (q < 1)%Q ->
  durationCheck e r rowIndex = [durationError e rowIndex].
Proof.
  intros Hu Hq Hr. unfold durationCheck. rewrite Hq.
  assert (is_undefined (getNormalizedValue r ["duration"; "taskDuration"]) = false) as ->
    by (destruct (getNormalizedValue r _) eqn:E; try reflexivity; congruence).
  assert (lt (Fin q) (of_Z 1) = true) as -> by (now apply lt_Fin).
  reflexivity.
Qed.

Lemma durationCheck_NaN :
  ToNumber (getNormalizedValue r ["duration"; "taskDuration"]) = NaN ->
  durationCheck e r rowIndex = [].
Proof.
  intros Hq. unfold durationCheck. rewrite Hq. simpl. now rewrite andb_false_r.
Qed.

End Bounds.

(** C1, what the code does. A priority that reads as 0 or 6 is reported
    and one from 1 to 5 is not, and a duration below 1 is reported; but a
    priority or a duration that is a non-numeric text reads as NaN, both
    comparisons with NaN are false, and the row gets no diagnostic at
    all. *)
Theorem validateRow_non_numeric_passes (rowIndex : nat) (allSheets : Sheets) :
  validateRow clients [("priorityLevel", VStr "abc")] rowIndex allSheets = []
  /\ validateRow tasks [("priority", VStr "abc")] rowIndex allSheets = []
  /\ validateRow tasks [("duration", VStr "abc")] rowIndex allSheets = []
  /\ validateRow clients [("priorityLevel", VStr "0")] rowIndex allSheets
       = [priorityError clients rowIndex "priorityLevel"]
  /\ validateRow clients [("priorityLevel", VStr "6")] rowIndex allSheets
       = [priorityError clients rowIndex "priorityLevel"]
  /\ validateRow tasks [("priority", VNum (of_Z 6))] rowIndex allSheets
       = [priorityError tasks rowIndex "priority"]
  /\ validateRow clients [("priorityLevel", VStr "3")] rowIndex allSheets = []
  /\ validateRow tasks [("duration", VStr "0")] rowIndex allSheets
       = [durationError tasks rowIndex]
  /\ (forall e r aliases field,
        ToNumber (getNormalizedValue r aliases) = NaN ->
        priorityCheck e r rowIndex aliases field = [])
  /\ (forall e r,
        ToNumber (getNormalizedValue r ["duration"; "taskDuration"]) = NaN ->
        durationCheck e r rowIndex = []).
Proof.
  repeat split; try reflexivity.
  - intros. now apply priorityCheck_NaN.
  - intros. now apply durationCheck_NaN.
Qed.

(** ** Duplicate-id check *)

Definition rowId (e : EntityType) (r : row) : value := getNormalizedValue r (idAliases e).

(** The identifier a row registers or is compared by, when it has one. *)
Definition idKey (e : EntityType) (r : row) : option string :=
  if has_id (rowId e r) then Some (ToString (rowId e r)) else None.

(** Position of the first of [rows] with identifier [k]. *)
Definition firstWith (e : EntityType) (k : string) (rows : list row) : option nat :=
  fst <$> list_find (λ r, idKey e r = Some k) rows.

(** What the check reports at position [j] of [rows]: one diagnostic when
    an earlier row has the same identifier, naming the first of them. *)
Definition duplicateAt (e : EntityType) (rows : list row) (j : nat) : list ValidationError :=
  match rows !! j with
  | Some r =>
      match idKey e r with
      | Some k =>
          match firstWith e k (take j rows) with
          | Some i => [createError e (Z.of_nat j) "id" (duplicateMessage (rowId e r) i) error]
          | None => []
          end
      | None => []
      end
  | None => []
  end.

(** The map [ids] holds the first position of every identifier of the
    rows seen so far. *)
Definition registered (e : EntityType) (seen : list row) (ids : gmap string nat) : Prop :=
  ∀ k, ids !! k = firstWith e k seen.

Lemma registered_empty (e : EntityType) : registered e [] ∅.
Proof. intros k. reflexivity. Qed.

Lemma firstWith_snoc (e : EntityType) (k : string) (seen : list row) (r : row) :
  firstWith e k (seen ++ [r]) =
    match firstWith e k seen with
    | Some i => Some i
    | None => if decide (idKey e r = Some k) then Some (length seen) else None
    end.
Proof.
  unfold firstWith.
  destruct (list_find (λ r, idKey e r = Some k) seen) as [[i x]|] eqn:E.
  - now rewrite (list_find_app_l _ _ _ _ _ E).
  - rewrite list_find_app_r by exact E. simpl.
    destruct (decide (idKey e r = Some k)); reflexivity.
Qed.

Lemma registered_skip (e : EntityType) (seen : list row) (ids : gmap string nat) (r : row) :
  registered e seen ids -> idKey e r = None -> registered e (seen ++ [r]) ids.
Proof.
  intros H Hr k. rewrite firstWith_snoc, <- H, Hr.
  destruct (ids !! k); [reflexivity|]. now destruct (decide _).
Qed.

Lemma registered_known (e : EntityType) (seen : list row) (ids : gmap string nat)
    (r : row) (k : string) (i : nat) :
  registered e seen ids -> idKey e r = Some k -> ids !! k = Some i ->
  registered e (seen ++ [r]) ids.
Proof.
  intros H Hr Hi k'. rewrite firstWith_snoc, <- H, Hr.
  destruct (ids !! k') eqn:E; [reflexivity|].
  destruct (decide (Some k = Some k')) as [[= ->]|]; congruence.
Qed.

Lemma registered_new (e : EntityType) (seen : list row) (ids : gmap string nat)
    (r : row) (k : string) :
  registered e seen ids -> idKey e r = Some k -> ids !! k = None ->
  registered e (seen ++ [r]) (<[k := length seen]> ids).
Proof.
  intros H Hr Hi k'. rewrite firstWith_snoc, <- H, Hr.
  destruct (decide (k = k')) as [<-|Hne].
  - rewrite lookup_insert_eq, Hi. now destruct (decide _).
  - rewrite lookup_insert_ne by exact Hne.
    destruct (ids !! k'); [reflexivity|].
    destruct (decide (Some k = Some k')) as [[= ->]|]; congruence.
Qed.

(** The loop, started after the rows [seen] with their identifiers
    registered, reports position by position what [duplicateAt] says. *)
Lemma duplicateLoop_from (e : EntityType) (rows seen : list row) (ids : gmap string nat) :
  registered e seen ids ->
  duplicateLoop e rows (length seen) ids
    = flat_map (duplicateAt e (seen ++ rows)) (seq (length seen) (length rows)).
Proof.
  revert seen ids. induction rows as [|r rest IH]; intros seen ids Hreg; [reflexivity|].
  cbn [duplicateLoop length seq flat_map].
  assert (duplicateAt e (seen ++ r :: rest) (length seen) =
          match idKey e r with
          | Some k => match ids !! k with
                      | Some i => [createError e (Z.of_nat (length seen)) "id"
                                     (duplicateMessage (rowId e r) i) error]
                      | None => []
                      end
          | None => []
          end) as Hat.
  { unfold duplicateAt. rewrite list_lookup_middle by reflexivity.
    rewrite take_app_length. destruct (idKey e r) as [k|]; [|reflexivity].
    now rewrite Hreg. }
  rewrite Hat. clear Hat.
  assert (Hnext : forall ids', registered e (seen ++ [r]) ids' ->
            duplicateLoop e rest (S (length seen)) ids'
            = flat_map (duplicateAt e (seen ++ r :: rest)) (seq (S (length seen)) (length rest))).
  { intros ids' H'. specialize (IH (seen ++ [r]) ids' H').
    rewrite length_app, Nat.add_1_r, <- app_assoc in IH. exact IH. }
  unfold idKey in *. fold (rowId e r).
  destruct (has_id (rowId e r)) eqn:Hid.
  - destruct (ids !! ToString (rowId e r)) as [i|] eqn:Hi.
    + simpl. f_equal. apply Hnext.
      eapply registered_known; eauto. unfold idKey. now rewrite Hid.
    + simpl. apply Hnext. apply registered_new; auto. unfold idKey. now rewrite Hid.
  - simpl. apply Hnext. apply registered_skip; auto. unfold idKey. now rewrite Hid.
Qed.

Definition sheetOf (rows : list row) : SheetData :=
  {| name := EmptyString; headers := []; jsonData := rows |}.

Definition T1T2T1 : list row :=
  [[("id", VStr "T1")]; [("id", VStr "T2")]; [("id", VStr "T1")]].


(** [firstWith] is the least position holding the identifier. *)
Lemma firstWith_least (e : EntityType) (k : string) (rows : list row) (i : nat) :
  firstWith e k rows = Some i <->
  (exists r, rows !! i = Some r /\ idKey e r = Some k)
  /\ (forall j r, rows !! j = Some r -> j < i -> idKey e r <> Some k).
Proof.
  unfold firstWith. split.
  - intros H. apply fmap_Some in H as ([i' r] & Hf & ->).
    apply list_find_Some in Hf as (Hl & Hk & Hmin). simpl. split; [now exists r|].
    exact Hmin.
  - intros [(r & Hl & Hk) Hmin].
    assert (list_find (λ r, idKey e r = Some k) rows = Some (i, r)) as ->; [|reflexivity].
    apply list_find_Some. auto.
Qed.

Lemma duplicateLoop_blank (e : EntityType) (rows : list row) (index : nat)
    (ids : gmap string nat) :
  (forall r, In r rows -> has_id (rowId e r) = false) ->
  duplicateLoop e rows index ids = [].
Proof.
  revert index ids. induction rows as [|r rest IH]; intros index ids H; [reflexivity|].
  cbn [duplicateLoop]. fold (rowId e r). rewrite (H r) by now left.
  apply IH. intros r' Hr'. apply H. now right.
Qed.



(** ** Objects: reading after writing *)

Section Objects.

Context {A : Type}.
Implicit Types (o : obj A) (k : string) (v : A).

Lemma obj_has_In k o : obj_has k o = true <-> In k (obj_keys o).
Proof.
  unfold obj_has. induction o as [|[k' v'] o IH]; simpl; [split; [discriminate|tauto]|].
  destruct (String.eqb_spec k' k) as [->|Hne]; [tauto|].
  rewrite IH. split; [tauto|]. intros [H|H]; [congruence|exact H].
Qed.

Lemma obj_get_None k o : obj_get k o = None <-> ~ In k (obj_keys o).
Proof.
  rewrite <- obj_has_In. unfold obj_has. destruct (obj_get k o); split; congruence.
Qed.

Lemma obj_keys_replace k v o : obj_keys (obj_replace k v o) = obj_keys o.
Proof.
  induction o as [|[k' v'] o IH]; simpl; [reflexivity|].
  destruct (String.eqb k' k); simpl; [reflexivity|]. now rewrite IH.
Qed.

Lemma obj_get_replace k k' v o :
  obj_get k' (obj_replace k v o) =
    if String.eqb k k' then (if obj_has k o then Some v else None) else obj_get k' o.
Proof.
  unfold obj_has. induction o as [|[k0 v0] o IH]; simpl.
  - now destruct (String.eqb k k').
  - destruct (String.eqb_spec k0 k) as [->|Hne]; simpl.
    + destruct (String.eqb_spec k k'); reflexivity.
    + destruct (String.eqb_spec k0 k') as [->|Hne'].
      * destruct (String.eqb_spec k k'); [congruence|reflexivity].
      * exact IH.
Qed.

Lemma obj_keys_insert_index i k v o :
  exists l1 l2, obj_keys o = (l1 ++ l2)%list
                /\ obj_keys (obj_insert_index i k v o) = (l1 ++ k :: l2)%list.
Proof.
  induction o as [|[k' v'] o (l1 & l2 & H1 & H2)]; simpl.
  - now exists [], [].
  - destruct (array_index k') as [j|].
    + destruct (j <? i)%Z; simpl.
      * exists (k' :: l1), l2. simpl. now rewrite H1, H2.
      * now exists [], (k' :: obj_keys o).
    + now exists [], (k' :: obj_keys o).
Qed.

Lemma obj_get_insert_index i k k' v o :
  ~ In k (obj_keys o) ->
  obj_get k' (obj_insert_index i k v o) = if String.eqb k k' then Some v else obj_get k' o.
Proof.
  induction o as [|[k0 v0] o IH]; simpl; intros Hk.
  - reflexivity.
  - assert (k0 <> k) by tauto. assert (~ In k (obj_keys o)) by tauto.
    assert (Hhead : obj_get k' ((k, v) :: (k0, v0) :: o)
                    = if String.eqb k k' then Some v else obj_get k' ((k0, v0) :: o))
      by reflexivity.
    destruct (array_index k0) as [j|]; [destruct (j <? i)%Z|]; try exact Hhead.
    simpl. rewrite IH by assumption.
    destruct (String.eqb_spec k0 k') as [->|]; [|reflexivity].
    destruct (String.eqb_spec k k'); [congruence|reflexivity].
Qed.

Lemma obj_get_app k' o o' :
  obj_get k' (o ++ o') = match obj_get k' o with Some v => Some v | None => obj_get k' o' end.
Proof.
  induction o as [|[k0 v0] o IH]; simpl; [reflexivity|].
  destruct (String.eqb k0 k'); [reflexivity | exact IH].
Qed.

(** [o[k] = v] then [o[k']]. *)
Lemma obj_get_set k k' v o :
  obj_get k' (obj_set k v o) = if String.eqb k k' then Some v else obj_get k' o.
Proof.
  unfold obj_set. destruct (obj_has k o) eqn:Hh.
  - rewrite obj_get_replace, Hh. reflexivity.
  - assert (Hn : ~ In k (obj_keys o)).
    { rewrite <- obj_has_In. congruence. }
    destruct (array_index k) as [i|].
    + now apply obj_get_insert_index.
    + rewrite obj_get_app. simpl.
      destruct (String.eqb_spec k k') as [<-|].
      * apply obj_get_None in Hn. now rewrite Hn.
      * now destruct (obj_get k' o).
Qed.

Lemma obj_keys_set k v o :
  (In k (obj_keys o) /\ obj_keys (obj_set k v o) = obj_keys o)
  \/ (~ In k (obj_keys o) /\
      exists l1 l2, obj_keys o = (l1 ++ l2)%list
                    /\ obj_keys (obj_set k v o) = (l1 ++ k :: l2)%list).
Proof.
  unfold obj_set. destruct (obj_has k o) eqn:Hh.
  - left. split; [now apply obj_has_In | apply obj_keys_replace].
  - right. split; [rewrite <- obj_has_In; congruence|].
    destruct (array_index k) as [i|].
    + apply obj_keys_insert_index.
    + exists (obj_keys o), []. unfold obj_keys. rewrite List.map_app, app_nil_r. now simpl.
Qed.

Lemma obj_keys_set_In k k' v o :
  In k' (obj_keys (obj_set k v o)) <-> k' = k \/ In k' (obj_keys o).
Proof.
  destruct (obj_keys_set k v o) as [[Hin ->]|[Hn (l1 & l2 & -> & ->)]].
  - split; [tauto|]. intros [->|H]; assumption.
  - rewrite !in_app_iff. simpl. split; intros H; intuition.
Qed.

Lemma obj_keys_set_NoDup k v o :
  List.NoDup (obj_keys o) -> List.NoDup (obj_keys (obj_set k v o)).
Proof.
  destruct (obj_keys_set k v o) as [[Hin ->]|[Hn (l1 & l2 & E1 & ->)]]; [tauto|].
  rewrite E1 in *. intros H. apply NoDup_Add with (a := k) (l := (l1 ++ l2)%list).
  - apply Add_app.
  - split; assumption.
Qed.

End Objects.

(** ** Phase-capacity accounting *)

(** The key under which a task is accounted: the text of its [phase]
    field, when it has one. *)
Definition phaseKey (task : row) : option string :=
  let phase := getNormalizedValue task ["phase"; "taskPhase"] in
  if is_undefined phase then None else Some (ToString phase).

(** The durations of the tasks accounted under [k], in row order. *)
Definition durationsAt (k : string) (trows : list row) : list number :=
  List.map (fun t => ToNumber (taskDuration t))
           (List.filter (fun t => bool_decide (phaseKey t = Some k)) trows).

(** [(total || 0) + d] on the total so far. *)
Definition accumulate (acc : option number) (d : number) : option number :=
  Some (add (or_zero acc) d).

Definition requiredAt (k : string) (trows : list row) : option number :=
  fold_left accumulate (durationsAt k trows) None.

(** Every slot every worker lists, in row order. *)
Definition allSlots (wrows : list row) : list string :=
  flat_map (fun w => fst (parseArrayString (getNormalizedValue w ["availableSlots"; "slots"])))
           wrows.

Definition slotKey (slot : string) : option string :=
  if isNaN (StringToNumber slot) then None
  else Some (number_to_string (StringToNumber slot)).

(** How many listed slots are the phase printed as [k]. *)
Definition slotCount (k : string) (slots : list string) : nat :=
  length (List.filter (fun s => bool_decide (slotKey s = Some k)) slots).

(** The diagnostics of the phase with key [k]. *)
Definition saturationAt (trows wrows : list row) (k : string) : list ValidationError :=
  match requiredAt k trows with
  | Some required =>
      let available :=
        of_nat (slotCount (number_to_string (StringToNumber k)) (allSlots wrows)) in
      if gt required available
      then [createError tasks (-1) "Phase Saturation"
              (saturationMessage k required available) error]
      else []
  | None => []
  end.

Fixpoint sumQ (l : list Q) : Q :=
  match l with
  | [] => 0
  | q :: l' => q + sumQ l'
  end.

Lemma countTask_get (k : string) (acc : obj number) (t : row) :
  obj_get k (countTask acc t) =
    if bool_decide (phaseKey t = Some k)
    then accumulate (obj_get k acc) (ToNumber (taskDuration t))
    else obj_get k acc.
Proof.
  unfold countTask, phaseKey. cbv zeta.
  destruct (is_undefined (getNormalizedValue t ["phase"; "taskPhase"])); cbn [negb].
  - rewrite bool_decide_eq_false_2 by discriminate. reflexivity.
  - rewrite obj_get_set.
    destruct (String.eqb_spec (ToString (getNormalizedValue t ["phase"; "taskPhase"])) k)
      as [->|Hne].
    + rewrite bool_decide_eq_true_2 by reflexivity. reflexivity.
    + rewrite bool_decide_eq_false_2 by congruence. reflexivity.
Qed.

Lemma countTask_fold_get (k : string) (trows : list row) (acc : obj number) :
  obj_get k (fold_left countTask trows acc)
    = fold_left accumulate (durationsAt k trows) (obj_get k acc).
Proof.
  revert acc. induction trows as [|t trows IH]; intros acc; [reflexivity|].
  simpl. rewrite IH, countTask_get. unfold durationsAt. simpl.
  destruct (bool_decide (phaseKey t = Some k)); reflexivity.
Qed.

Lemma countTask_keys (k : string) (acc : obj number) (t : row) :
  In k (obj_keys (countTask acc t)) <-> phaseKey t = Some k \/ In k (obj_keys acc).
Proof.
  unfold countTask, phaseKey.
  destruct (is_undefined (getNormalizedValue t ["phase"; "taskPhase"])); simpl.
  - split; [tauto|]. intros [H|H]; [discriminate|exact H].
  - rewrite obj_keys_set_In. split; intros [H|H]; auto; left; congruence.
Qed.

Lemma countTask_fold_keys (k : string) (trows : list row) (acc : obj number) :
  In k (obj_keys (fold_left countTask trows acc))
  <-> (exists t, In t trows /\ phaseKey t = Some k) \/ In k (obj_keys acc).
Proof.
  revert acc. induction trows as [|t trows IH]; intros acc; simpl.
  - split; [tauto|]. intros [(t & [] & _)|H]; exact H.
  - rewrite IH, countTask_keys. split.
    + intros [(t' & Hin & Hk)|[Hk|Hin]]; eauto.
    + intros [(t' & [<-|Hin] & Hk)|Hin]; eauto.
Qed.

Lemma countTask_fold_NoDup (trows : list row) (acc : obj number) :
  List.NoDup (obj_keys acc) -> List.NoDup (obj_keys (fold_left countTask trows acc)).
Proof.
  revert acc. induction trows as [|t trows IH]; intros acc H; [exact H|].
  simpl. apply IH. unfold countTask.
  destruct (is_undefined _); simpl; [exact H|]. now apply obj_keys_set_NoDup.
Qed.

(** Numbers of slots are stored as themselves. *)
Definition stored (n : nat) : option number :=
  match n with
  | O => None
  | S _ => Some (of_nat n)
  end.

Lemma Qred_inject_Z (z : Z) : Qred (inject_Z z) = inject_Z z.
Proof. apply Qcanon.Qred_identity. simpl. apply Z.gcd_1_r. Qed.

Lemma add_of_nat (n : nat) : add (of_nat n) (of_Z 1) = of_nat (S n).
Proof.
  unfold add, of_nat, of_Z. f_equal.
  rewrite <- (Qred_inject_Z (Z.of_nat (S n))). apply Qred_complete.
  rewrite <- inject_Z_plus. now rewrite Nat2Z.inj_succ, <- Z.add_1_r.
Qed.

Lemma or_zero_stored (n : nat) : or_zero (stored n) = of_nat n.
Proof.
  destruct n as [|n]; [reflexivity|]. unfold stored, or_zero, truthy, of_nat, of_Z.
  destruct (Qeq_bool (inject_Z (Z.of_nat (S n))) 0) eqn:E; [|reflexivity].
  apply Qeq_bool_eq in E. unfold Qeq in E. simpl in E. lia.
Qed.

Lemma countSlot_get (k : string) (acc : obj number) (slot : string) (n : nat) :
  obj_get k acc = stored n ->
  obj_get k (countSlot acc slot)
    = stored (n + if bool_decide (slotKey slot = Some k) then 1 else 0).
Proof.
  intros H. unfold countSlot, slotKey. cbv zeta.
  destruct (isNaN (StringToNumber slot)); cbn [negb].
  - rewrite bool_decide_eq_false_2 by discriminate. now rewrite Nat.add_0_r.
  - rewrite obj_get_set.
    destruct (String.eqb_spec (number_to_string (StringToNumber slot)) k) as [->|Hne].
    + rewrite bool_decide_eq_true_2 by reflexivity.
      rewrite H, or_zero_stored, add_of_nat, Nat.add_1_r. reflexivity.
    + rewrite bool_decide_eq_false_2 by congruence. now rewrite Nat.add_0_r.
Qed.

Lemma countSlot_fold_get (k : string) (slots : list string) (acc : obj number) (n : nat) :
  obj_get k acc = stored n ->
  obj_get k (fold_left countSlot slots acc) = stored (n + slotCount k slots).
Proof.
  revert acc n. induction slots as [|slot slots IH]; intros acc n H; simpl.
  - unfold slotCount. simpl. now rewrite Nat.add_0_r.
  - rewrite (IH _ _ (countSlot_get k acc slot n H)). f_equal.
    unfold slotCount. simpl. destruct (bool_decide (slotKey slot = Some k)); simpl; lia.
Qed.

Lemma phaseSlots_flat (s : Sheets) :
  phaseSlots s = fold_left countSlot (allSlots (jsonData (sheet_workers s))) [].
Proof.
  unfold phaseSlots, allSlots. generalize (@nil (string * number)).
  induction (jsonData (sheet_workers s)) as [|w ws IH]; intros acc; [reflexivity|].
  simpl. now rewrite fold_left_app, IH.
Qed.

Lemma availableAt_count (s : Sheets) (phase : string) :
  availableAt (phaseSlots s) phase
    = of_nat (slotCount (number_to_string (StringToNumber phase))
                        (allSlots (jsonData (sheet_workers s)))).
Proof.
  unfold availableAt. rewrite phaseSlots_flat.
  rewrite (countSlot_fold_get _ _ [] 0 eq_refl). apply or_zero_stored.
Qed.

Lemma or_zero_Fin (a : Q) : exists a', or_zero (Some (Fin a)) = Fin a' /\ a' == a.
Proof.
  unfold or_zero, truthy. destruct (Qeq_bool a 0) eqn:E; simpl.
  - exists 0%Q. split; [reflexivity|]. apply Qeq_bool_eq in E. now rewrite E.
  - exists a. split; reflexivity.
Qed.

(** On durations that are numbers the running total is their sum. *)
Lemma accumulate_sum (qs : list Q) (a : Q) :
  exists q, fold_left accumulate (List.map Fin qs) (Some (Fin a)) = Some (Fin q)
            /\ q == a + sumQ qs.
Proof.
  revert a. induction qs as [|d qs IH]; intros a; simpl.
  - exists a. split; [reflexivity|]. now rewrite Qplus_0_r.
  - unfold accumulate at 2. destruct (or_zero_Fin a) as (a' & -> & Ha). simpl.
    destruct (IH (Qred (a' + d))) as (q & Hq & Hs). exists q. split; [exact Hq|].
    rewrite Hs, Qred_correct, Ha. now rewrite Qplus_assoc.
Qed.

Lemma requiredAt_sum (k : string) (trows : list row) (qs : list Q) :
  durationsAt k trows = List.map Fin qs -> qs <> [] ->
  exists q, requiredAt k trows = Some (Fin q) /\ q == sumQ qs.
Proof.
  intros H Hne. unfold requiredAt. rewrite H. destruct qs as [|d qs]; [congruence|].
  simpl. unfold accumulate at 2. simpl.
  destruct (accumulate_sum qs (Qred (0 + d))) as (q & Hq & Hs).
  exists q. split; [exact Hq|]. rewrite Hs, Qred_correct. now rewrite Qplus_0_l.
Qed.

Lemma flat_map_ext_In {A B} (f g : A -> list B) (l : list A) :
  (forall x, In x l -> f x = g x) -> flat_map f l = flat_map g l.
Proof.
  induction l as [|x l IH]; intros H; simpl; [reflexivity|].
  rewrite (H x) by now left. f_equal. apply IH. intros y Hy. apply H. now right.
Qed.

Lemma flat_map_entries {B} (f : string * number -> list B) (o : obj number) :
  List.NoDup (obj_keys o) ->
  flat_map f o
    = flat_map (fun k => match obj_get k o with Some v => f (k, v) | None => [] end)
               (obj_keys o).
Proof.
  induction o as [|[k v] o IH]; intros Hnd; [reflexivity|].
  simpl in *. apply List.NoDup_cons_iff in Hnd as [Hk Hnd].
  rewrite String.eqb_refl. f_equal. rewrite (IH Hnd).
  apply flat_map_ext_In. intros k' Hin.
  destruct (String.eqb_spec k k') as [->|]; [contradiction|reflexivity].
Qed.

Definition twoWorkersPhase1 : list row :=
  [[("id", VStr "W1"); ("availableSlots", VStr "1,2")];
   [("id", VStr "W2"); ("availableSlots", VStr "[1]")]].

Definition fiveAtPhase1 : list row :=
  [[("id", VStr "T1"); ("duration", VNum (of_Z 3)); ("phase", VNum (of_Z 1))];
   [("id", VStr "T2"); ("duration", VStr "2"); ("phase", VStr "1")];
   [("id", VStr "T3"); ("duration", VNum (of_Z 9)); ("preferredPhases", VStr "1-2")]].


(** ** Determinism of the diagnostics *)

(** A diagnostic as [createError] builds it: its identifier is the
    template on its own entity, row, field and message, and it is not
    marked fixed. *)
Definition derived (d : ValidationError) : Prop :=
  d = createError (entity d) (rowIndex d) (field d) (message d) (level d).

Lemma derived_createError e i f m l : derived (createError e i f m l).
Proof. reflexivity. Qed.

Ltac derived_step :=
  match goal with
  | |- List.Forall _ [] => constructor
  | |- List.Forall _ (_ :: _) => constructor
  | |- List.Forall _ (_ ++ _) => apply List.Forall_app; split
  | |- List.Forall _ (flat_map _ _) => apply List.Forall_flat_map, List.Forall_forall; intros
  | |- derived (createError _ _ _ _ _) => apply derived_createError
  | |- List.Forall _ (if ?b then _ else _) => destruct b
  | |- List.Forall _ (let '(_, _) := ?x in _) => destruct x
  | |- List.Forall _ (match ?x with _ => _ end) => destruct x
  end.

Lemma validateRow_derived e r i s : List.Forall derived (validateRow e r i s).
Proof.
  unfold validateRow, jsonColumns, priorityCheck, requestedTasksCheck, workerChecks,
    durationCheck, preferredPhasesCheck, maxConcurrentCheck.
  repeat derived_step.
Qed.

Lemma concat_imap_Forall {A B} (P : B -> Prop) (f : nat -> A -> list B) (l : list A) :
  (forall i x, List.Forall P (f i x)) -> List.Forall P (concat (imap f l)).
Proof.
  revert f. induction l as [|x l IH]; intros f H; simpl; [constructor|].
  apply List.Forall_app. split; [apply H|]. apply IH. intros i y. apply H.
Qed.

Lemma duplicateLoop_derived e rows index ids :
  List.Forall derived (duplicateLoop e rows index ids).
Proof.
  revert index ids. induction rows as [|r rows IH]; intros index ids; simpl; [constructor|].
  destruct (has_id _); [|apply IH].
  destruct (ids !! _); [constructor; [apply derived_createError | apply IH] | apply IH].
Qed.

Lemma allErrors_derived (rs : list Rule) (s : Sheets) :
  List.Forall derived (allErrors rs s).
Proof.
  unfold allErrors.
  apply List.Forall_app; split; [unfold schemaCheck; repeat derived_step|].
  apply List.Forall_app; split.
  { unfold duplicateCheck. derived_step. apply duplicateLoop_derived. }
  apply List.Forall_app; split.
  { unfold rowValidation. derived_step. apply concat_imap_Forall.
    intros. apply validateRow_derived. }
  apply List.Forall_app; split; [unfold phaseSaturation; repeat derived_step|].
  apply List.Forall_app; split; [unfold skillCoverage; repeat derived_step|].
  apply List.Forall_app; split.
  - unfold coRunCheck, coRunRule, circularError. repeat derived_step.
  - unfold slotRestrictionCheck, groupCheck. repeat derived_step.
Qed.

(** C6. A validation pass replaces the diagnostics of the state by a list
    that depends on the snapshot and the rule list only: whatever the
    diagnostics, fixed marks and progress before it, two passes over the
    same snapshot and rules leave the same diagnostics, and a second pass
    changes nothing. Every diagnostic of a pass has as identifier the
    template on its own entity, row index, field and message, so
    diagnostics that agree on these four carry the same identifier. *)
Theorem validateAllData_idempotent (s : Sheets) (st st' : Dashboard) (d d' : ValidationError) :
  (rules st = rules st' ->
   validationErrors (validateAllData s st) = validationErrors (validateAllData s st'))
  /\ validateAllData s (validateAllData s st) = validateAllData s st
  /\ (forall errorId, validateAllData s (markAsFixed errorId (validateAllData s st))
                      = validateAllData s st)
  /\ (In d (validationErrors (validateAllData s st)) ->
      id d = error_id (entity d) (rowIndex d) (field d) (message d) /\ fixed d = None)
  /\ (In d (validationErrors (validateAllData s st)) ->
      In d' (validationErrors (validateAllData s st')) ->
      entity d = entity d' -> rowIndex d = rowIndex d' -> field d = field d' ->
      message d = message d' -> id d = id d').
Proof.
  assert (H : forall st0 d0, In d0 (validationErrors (validateAllData s st0)) ->
            id d0 = error_id (entity d0) (rowIndex d0) (field d0) (message d0)
            /\ fixed d0 = None).
  { intros st0 d0 Hin. simpl in Hin.
    pose proof (proj1 (List.Forall_forall _ _) (allErrors_derived (rules st0) s) d0 Hin) as Hd.
    unfold derived in Hd. rewrite Hd. simpl. split; reflexivity. }
  split; [intros Hr; simpl; now rewrite Hr|].
  split; [reflexivity|]. split; [reflexivity|]. split; [apply H|].
  intros Hd Hd' He Hi Hf Hm.
  rewrite (proj1 (H st d Hd)), (proj1 (H st' d' Hd')). congruence.
Qed.

Definition emptySheets : Sheets :=
  {| sheet_clients := sheetOf []; sheet_workers := sheetOf []; sheet_tasks := sheetOf [] |}.

Definition clientsOnly (rows : list row) : Sheets :=
  {| sheet_clients := {| name := "Clients"; headers := ["id"; "priorityLevel"];
                         jsonData := rows |};
     sheet_workers := sheetOf []; sheet_tasks := sheetOf [] |}.

Definition startState (s : Sheets) (rs : list Rule) : Dashboard :=
  {| sheets := s; rules := rs; validationErrors := []; validationProgress := 0 |}.

Lemma validateAllData_idempotent_witness :
  let s := clientsOnly [[("id", VStr "C1"); ("priorityLevel", VNum (of_Z 7))]] in
  let d := priorityError clients 0 "priorityLevel" in
  In d (validationErrors (validateAllData s (startState s [])))
  /\ id d = "clients-0-priorityLevel-Priority must be 1-5.".
Proof.
  intros s d.
  assert (Hin : In d (validationErrors (validateAllData s (startState s [])))).
  { vm_compute. left. reflexivity. }
  split; [exact Hin|].
  destruct (validateAllData_idempotent s (startState s []) (startState s []) d d)
    as (_ & _ & _ & H & _).
  rewrite (proj1 (H Hin)). reflexivity.
Defined.

(** ** Cell edits *)

Lemma find_key_app (n : string) (l1 l2 : row) :
  find_key n (l1 ++ l2) = match find_key n l1 with
                          | Some v => Some v
                          | None => find_key n l2
                          end.
Proof.
  induction l1 as [|[k v] l1 IH]; simpl; [reflexivity|].
  destruct (String.eqb (normalizeFieldName k) n); [reflexivity | exact IH].
Qed.

(** A key that is new in an object goes somewhere among its entries. *)
Lemma obj_set_new {A} (k : string) (v : A) (o : obj A) :
  obj_has k o = false ->
  exists l1 l2, o = (l1 ++ l2)%list /\ obj_set k v o = (l1 ++ (k, v) :: l2)%list.
Proof.
  intros H. unfold obj_set. rewrite H. destruct (array_index k) as [i|].
  - clear H. induction o as [|[k' v'] o (l1 & l2 & H1 & H2)]; simpl.
    + now exists [], [].
    + destruct (array_index k') as [j|]; [destruct (j <? i)%Z|].
      * exists ((k', v') :: l1), l2. simpl. now rewrite <- H1, H2.
      * now exists [], ((k', v') :: o).
      * now exists [], ((k', v') :: o).
  - exists o, []. now rewrite app_nil_r.
Qed.

Lemma find_key_replace_other (n k : string) (v : value) (r : row) :
  normalizeFieldName k <> n -> find_key n (obj_replace k v r) = find_key n r.
Proof.
  intros Hne. induction r as [|[k' v'] r IH]; simpl; [reflexivity|].
  destruct (String.eqb_spec k' k) as [->|]; simpl.
  - destruct (String.eqb_spec (normalizeFieldName k) n); [contradiction|reflexivity].
  - now rewrite IH.
Qed.

(** Writing a key leaves the lookup of every other normalized name as it
    was. *)
Lemma find_key_set_other (n k : string) (v : value) (r : row) :
  normalizeFieldName k <> n -> find_key n (obj_set k v r) = find_key n r.
Proof.
  intros Hne. destruct (obj_has k r) eqn:Hh.
  - unfold obj_set. rewrite Hh. now apply find_key_replace_other.
  - destruct (obj_set_new k v r Hh) as (l1 & l2 & -> & ->).
    rewrite !find_key_app. simpl.
    destruct (String.eqb_spec (normalizeFieldName k) n); [contradiction|reflexivity].
Qed.

Lemma getNormalizedValue_set_other (k : string) (v : value) (r : row) (fields : list string) :
  (forall f, In f fields -> normalizeFieldName k <> normalizeFieldName f) ->
  getNormalizedValue (obj_set k v r) fields = getNormalizedValue r fields.
Proof.
  induction fields as [|f fields IH]; intros H; simpl; [reflexivity|].
  rewrite find_key_set_other by (apply H; now left).
  rewrite IH by (intros f' Hf'; apply H; now right). reflexivity.
Qed.

Lemma find_key_None (n : string) (r : row) :
  find_key n r = None <-> forall k, In k (obj_keys r) -> normalizeFieldName k <> n.
Proof.
  induction r as [|[k v] r IH]; simpl.
  - split; [intros _ k []|reflexivity].
  - destruct (String.eqb_spec (normalizeFieldName k) n) as [E|E].
    + split; [discriminate|]. intros H. exfalso. apply (H k); auto.
    + rewrite IH. split.
      * intros H k' [<-|Hin]; auto.
      * intros H k' Hin. apply H. now right.
Qed.

Lemma find_first_key (h : string) (r : row) :
  match List.find (fun k => String.eqb (normalizeFieldName k) (normalizeFieldName h))
                  (obj_keys r) with
  | Some k0 =>
      normalizeFieldName k0 = normalizeFieldName h /\
      exists l1 v0 l2, r = (l1 ++ (k0, v0) :: l2)%list
                       /\ find_key (normalizeFieldName h) l1 = None
                       /\ ~ In k0 (obj_keys l1)
  | None => find_key (normalizeFieldName h) r = None
  end.
Proof.
  induction r as [|[k v] r IH]; simpl; [reflexivity|].
  destruct (String.eqb_spec (normalizeFieldName k) (normalizeFieldName h)) as [E|E].
  - split; [exact E|]. exists [], v, r. repeat split. intros [].
  - destruct (List.find _ (obj_keys r)) as [k0|]; [|exact IH].
    destruct IH as (E0 & l1 & v0 & l2 & -> & Hn & Hk). split; [exact E0|].
    exists ((k, v) :: l1), v0, l2. simpl. split; [reflexivity|]. split.
    + destruct (String.eqb_spec (normalizeFieldName k) (normalizeFieldName h));
        [contradiction | exact Hn].
    + intros [->|Hin]; [congruence | contradiction].
Qed.

Lemma obj_replace_first {A} (k : string) (v v0 : A) (l1 l2 : obj A) :
  ~ In k (obj_keys l1) ->
  obj_replace k v (l1 ++ (k, v0) :: l2) = (l1 ++ (k, v) :: l2)%list.
Proof.
  induction l1 as [|[k' v'] l1 IH]; simpl; intros H.
  - now rewrite String.eqb_refl.
  - destruct (String.eqb_spec k' k) as [->|]; [tauto|]. rewrite IH; tauto.
Qed.

Lemma normalizeFieldName_empty : normalizeFieldName EmptyString = EmptyString.
Proof. reflexivity. Qed.

(** The key the edit writes normalizes as the header does. *)
Lemma keyToUpdate_normalized (r : row) (h : string) :
  normalizeFieldName (keyToUpdate r h) = normalizeFieldName h.
Proof.
  unfold keyToUpdate. pose proof (find_first_key h r) as H.
  destruct (List.find _ (obj_keys r)) as [k0|]; [|reflexivity].
  destruct (is_empty k0); [reflexivity | apply H].
Qed.

(** After the edit, looking the header up gives the value written: the
    key the edit resolves is the one the lookup resolves. *)
Lemma find_key_after_edit (r : row) (h : string) (v : value) :
  normalizeFieldName h <> EmptyString ->
  find_key (normalizeFieldName h) (obj_set (keyToUpdate r h) v r) = Some v.
Proof.
  intros Hne. unfold keyToUpdate. pose proof (find_first_key h r) as H.
  destruct (List.find _ (obj_keys r)) as [k0|].
  - destruct H as (E0 & l1 & v0 & l2 & -> & Hn & Hk).
    assert (is_empty k0 = false) as ->.
    { destruct k0; [|reflexivity]. rewrite normalizeFieldName_empty in E0. congruence. }
    unfold obj_set.
    assert (obj_has k0 (l1 ++ (k0, v0) :: l2) = true) as ->.
    { apply obj_has_In. unfold obj_keys. rewrite List.map_app, in_app_iff. right. now left. }
    rewrite obj_replace_first by exact Hk. rewrite find_key_app, Hn. simpl.
    rewrite E0, String.eqb_refl. reflexivity.
  - assert (Hh : obj_has h r = false).
    { destruct (obj_has h r) eqn:E; [|reflexivity]. apply obj_has_In in E.
      exfalso. exact (proj1 (find_key_None _ _) H h E eq_refl). }
    destruct (obj_set_new h v r Hh) as (l1 & l2 & Hr & ->).
    rewrite Hr, find_key_app in H. rewrite find_key_app.
    destruct (find_key (normalizeFieldName h) l1); [discriminate|].
    simpl. now rewrite String.eqb_refl.
Qed.

(** The check of the JSON columns does not see a key that is no JSON
    column. *)
Lemma jsonColumns_set (e : EntityType) (k : string) (v : value) (r : row) (i : nat) :
  includes "json" (normalizeFieldName k) = false ->
  jsonColumns e (obj_set k v r) i = jsonColumns e r i.
Proof.
  intros Hk. unfold jsonColumns.
  set (f := fun (o : row) key =>
              if includes "json" (normalizeFieldName key)
              then let e0 := snd (parseJsonString (default VUndef (obj_get key o))) in
                   if is_set e0
                   then [createError e (Z.of_nat i) key (default EmptyString e0) error]
                   else []
              else []).
  change (flat_map (f (obj_set k v r)) (obj_keys (obj_set k v r))
          = flat_map (f r) (obj_keys r)).
  assert (Hf : forall key, f (obj_set k v r) key = f r key).
  { intros key. unfold f. rewrite obj_get_set.
    destruct (String.eqb_spec k key) as [<-|]; [now rewrite Hk | reflexivity]. }
  rewrite (flat_map_ext _ _ Hf).
  destruct (obj_keys_set k v r) as [[_ ->]|[_ (l1 & l2 & -> & ->)]]; [reflexivity|].
  rewrite !flat_map_app. simpl. unfold f at 2. now rewrite Hk.
Qed.

(** The diagnostic belongs to the cell of [field] at row [i] of [e]. *)
Definition fromCell (e : EntityType) (i : nat) (f : string) (d : ValidationError) : bool :=
  bool_decide (entity d = e) && (rowIndex d =? Z.of_nat i)%Z && String.eqb (field d) f.

Definition otherCell (e : EntityType) (i : nat) (f : string) (d : ValidationError) : bool :=
  negb (fromCell e i f d).

Ltac each_error leaf :=
  repeat match goal with
  | |- List.Forall _ [] => constructor
  | |- List.Forall _ (_ :: _) => constructor
  | |- List.Forall _ (_ ++ _) => apply List.Forall_app; split
  | |- List.Forall _ (flat_map _ _) => apply List.Forall_flat_map, List.Forall_forall; intros
  | |- List.Forall _ (if ?b then _ else _) => destruct b eqn:?
  | |- List.Forall _ (let '(_, _) := ?x in _) => destruct x eqn:?
  | |- List.Forall _ (match ?x with _ => _ end) => destruct x eqn:?
  | |- _ => leaf
  end.

Lemma validateRow_entity_index e r j s :
  List.Forall (fun d => entity d = e /\ rowIndex d = Z.of_nat j) (validateRow e r j s).
Proof.
  unfold validateRow, jsonColumns, priorityCheck, requestedTasksCheck, workerChecks,
    durationCheck, preferredPhasesCheck, maxConcurrentCheck.
  each_error ltac:(split; reflexivity).
Qed.

Lemma filter_id {A} (f : A -> bool) (l : list A) :
  List.Forall (fun x => f x = true) l -> List.filter f l = l.
Proof.
  induction 1 as [|x l Hx _ IH]; simpl; [reflexivity|]. now rewrite Hx, IH.
Qed.

Lemma filter_none {A} (f : A -> bool) (l : list A) :
  List.Forall (fun x => f x = false) l -> List.filter f l = [].
Proof.
  induction 1 as [|x l Hx _ IH]; simpl; [reflexivity|]. now rewrite Hx, IH.
Qed.

Lemma otherCell_field e i f e' j f' m l :
  String.eqb f' f = false -> otherCell e i f (createError e' j f' m l) = true.
Proof. intros H. unfold otherCell, fromCell. simpl. rewrite H. now rewrite andb_false_r. Qed.

Lemma otherCell_row e i f r j s :
  j <> i -> List.Forall (fun d => otherCell e i f d = true) (validateRow e r j s).
Proof.
  intros Hne. eapply List.Forall_impl; [|apply validateRow_entity_index].
  intros d [_ Hj]. unfold otherCell, fromCell. rewrite Hj.
  assert ((Z.of_nat j =? Z.of_nat i)%Z = false) as -> by (apply Z.eqb_neq; lia).
  now rewrite andb_false_r.
Qed.

Lemma otherCell_entity e e' i f r j s :
  e' <> e -> List.Forall (fun d => otherCell e i f d = true) (validateRow e' r j s).
Proof.
  intros Hne. eapply List.Forall_impl; [|apply validateRow_entity_index].
  intros d [He _]. unfold otherCell, fromCell. rewrite He.
  now rewrite bool_decide_eq_false_2.
Qed.

Lemma concat_imap_filter_id {A B} (keep : B -> bool) (F : nat -> A -> list B) (l : list A) :
  (forall j x, List.Forall (fun d => keep d = true) (F j x)) ->
  List.filter keep (concat (imap F l)) = concat (imap F l).
Proof.
  intros H. apply filter_id. now apply concat_imap_Forall.
Qed.

(** Replacing one row changes the diagnostics of that row only. *)
Lemma concat_imap_insert {A B} (keep : B -> bool) (F : nat -> A -> list B)
    (l : list A) (i : nat) (x x' : A) :
  l !! i = Some x ->
  F i x' = List.filter keep (F i x) ->
  (forall j y, j <> i -> List.Forall (fun d => keep d = true) (F j y)) ->
  concat (imap F (<[i := x']> l)) = List.filter keep (concat (imap F l)).
Proof.
  revert F i. induction l as [|y l IH]; intros F i Hl Hx Ho; [discriminate|].
  destruct i as [|i]; simpl in *.
  - injection Hl as ->. rewrite List.filter_app, Hx. f_equal.
    symmetry. apply filter_id, concat_imap_Forall. intros j z. apply Ho. lia.
  - rewrite List.filter_app. f_equal.
    + symmetry. apply filter_id, Ho. lia.
    + apply IH; [exact Hl | exact Hx |]. intros j z Hj. apply Ho. lia.
Qed.

Lemma Forall2_insert_same {A} (R : A -> A -> Prop) (l : list A) (i : nat) (x x' : A) :
  (forall y, R y y) -> l !! i = Some x -> R x x' -> Forall2 R l (<[i := x']> l).
Proof.
  intros Hrefl. revert i. induction l as [|y l IH]; intros i Hl HR; [discriminate|].
  destruct i as [|i]; simpl in *.
  - injection Hl as ->. constructor; [exact HR|].
    clear -Hrefl. induction l; constructor; auto.
  - constructor; [apply Hrefl | now apply IH].
Qed.

Lemma duplicateLoop_ext e rows rows' index ids :
  Forall2 (fun r r' => rowId e r = rowId e r') rows rows' ->
  duplicateLoop e rows index ids = duplicateLoop e rows' index ids.
Proof.
  intros H. revert index ids. induction H as [|r r' rows rows' Hr _ IH]; intros index ids;
    [reflexivity|].
  cbn [duplicateLoop]. fold (rowId e r) (rowId e r'). rewrite Hr.
  destruct (has_id (rowId e r')); [|apply IH].
  destruct (ids !! ToString (rowId e r')); [f_equal|]; apply IH.
Qed.

Lemma existsb_Forall2 {A} (f : A -> bool) (l l' : list A) :
  Forall2 (fun x y => f x = f y) l l' -> existsb f l = existsb f l'.
Proof. induction 1 as [|x y l l' H _ IH]; simpl; [reflexivity|]. now rewrite H, IH. Qed.

Section PriorityEdit.

Variables (s : Sheets) (rs : list Rule) (i : nat) (item : row) (header value : string) (q : Q).

Hypothesis Hitem : jsonData (sheet_clients s) !! i = Some item.
Hypothesis Hheader : normalizeFieldName header = "prioritylevel".
Hypothesis Hvalue : ToNumber (VStr value) = Fin q.
Hypothesis Hrange : (1 <= q <= 5)%Q.

Let item' : row := obj_set (keyToUpdate item header) (VStr value) item.

Let newSheets : Sheets :=
  set_sheet clients
    {| name := name (sheet_clients s); headers := headers (sheet_clients s);
       jsonData := <[i := item']> (jsonData (sheet_clients s)) |} s.

Let keep : ValidationError -> bool := otherCell clients i "priorityLevel".

Lemma editCell_priority : editCell s clients i header value = Some newSheets.
Proof. unfold editCell. simpl. now rewrite Hitem. Qed.

Lemma edited_key : normalizeFieldName (keyToUpdate item header) = "prioritylevel".
Proof. now rewrite keyToUpdate_normalized. Qed.

Lemma edited_other (fields : list string) :
  forallb (fun f => negb (String.eqb (normalizeFieldName f) "prioritylevel")) fields = true ->
  getNormalizedValue item' fields = getNormalizedValue item fields.
Proof.
  intros H. apply getNormalizedValue_set_other. intros f Hf. rewrite edited_key.
  rewrite forallb_forall in H. specialize (H f Hf). apply negb_true_iff in H.
  apply String.eqb_neq in H. congruence.
Qed.

Lemma edited_priority :
  getNormalizedValue item' ["priorityLevel"; "priority"] = VStr value.
Proof.
  simpl. change (normalizeFieldName "priorityLevel") with "prioritylevel".
  rewrite <- Hheader. unfold item'. rewrite find_key_after_edit; [reflexivity|].
  rewrite Hheader. discriminate.
Qed.

Lemma edited_row :
  validateRow clients item' i s = List.filter keep (validateRow clients item i s).
Proof.
  unfold validateRow. rewrite !List.filter_app. f_equal; [|f_equal].
  - unfold item'. rewrite jsonColumns_set by (now rewrite edited_key).
    symmetry. apply filter_id. unfold jsonColumns.
    each_error idtac. apply otherCell_field.
    destruct (String.eqb_spec x "priorityLevel") as [->|]; [discriminate|reflexivity].
  - rewrite (priorityCheck_inside clients item' i _ _ q); [| now rewrite edited_priority | exact Hrange].
    symmetry. apply filter_none. unfold priorityCheck. each_error idtac.
    unfold keep, otherCell, fromCell. cbn [entity rowIndex field createError].
    rewrite bool_decide_eq_true_2 by reflexivity. now rewrite Z.eqb_refl.
  - unfold requestedTasksCheck. rewrite edited_other by reflexivity.
    symmetry. apply filter_id. each_error idtac; now apply otherCell_field.
Qed.

Lemma edited_rows_related (R : row -> row -> Prop) :
  (forall y, R y y) -> R item item' ->
  Forall2 R (jsonData (sheet_clients s)) (<[i := item']> (jsonData (sheet_clients s))).
Proof. intros. eapply Forall2_insert_same; eauto. Qed.

Lemma duplicateLoop_field e rows index ids e0 i0 f :
  String.eqb "id" f = false ->
  List.Forall (fun d => otherCell e0 i0 f d = true) (duplicateLoop e rows index ids).
Proof.
  intros Hf. revert index ids.
  induction rows as [|r rows IH]; intros index ids; simpl; [constructor|].
  destruct (has_id _); [|apply IH].
  destruct (ids !! _); [constructor; [now apply otherCell_field | apply IH] | apply IH].
Qed.

(** The diagnostics after the edit are those before it without the
    priority diagnostic of the edited cell. *)
Lemma allErrors_after_edit :
  allErrors rs newSheets = List.filter keep (allErrors rs s).
Proof.
  unfold allErrors. rewrite !List.filter_app.
  f_equal; [|f_equal; [|f_equal; [|f_equal; [|f_equal; [|f_equal]]]]].
  - unfold schemaCheck, entities. cbn [flat_map sheet_of newSheets set_sheet sheet_clients
      sheet_workers sheet_tasks jsonData headers].
    rewrite length_insert. symmetry. apply filter_id.
    each_error idtac; now apply otherCell_field.
  - unfold duplicateCheck, entities. cbn [flat_map sheet_of newSheets set_sheet sheet_clients
      sheet_workers sheet_tasks jsonData headers].
    rewrite <- (duplicateLoop_ext clients (jsonData (sheet_clients s))).
    2:{ apply edited_rows_related; [reflexivity|]. unfold rowId. symmetry.
        apply edited_other. reflexivity. }
    symmetry. apply filter_id. repeat (apply List.Forall_app; split); try constructor;
      now apply duplicateLoop_field.
  - unfold rowValidation, entities. cbn [flat_map sheet_of newSheets set_sheet sheet_clients
      sheet_workers sheet_tasks jsonData headers].
    rewrite !List.filter_app. f_equal; [|f_equal; [|f_equal]].
    + apply (concat_imap_insert keep (fun j r => validateRow clients r j s) _ i item item').
      * exact Hitem.
      * exact edited_row.
      * intros j y Hj. now apply otherCell_row.
    + symmetry. apply concat_imap_filter_id. intros j y. now apply otherCell_entity.
    + symmetry. apply concat_imap_filter_id. intros j y. now apply otherCell_entity.
  - symmetry. apply filter_id. unfold phaseSaturation.
    each_error idtac; now apply otherCell_field.
  - symmetry. apply filter_id. unfold skillCoverage.
    each_error idtac; now apply otherCell_field.
  - symmetry. apply filter_id. unfold coRunCheck, coRunRule, circularError.
    each_error idtac; now apply otherCell_field.
  - unfold slotRestrictionCheck, groupCheck.
    cbn [sheet_of newSheets set_sheet sheet_clients sheet_workers sheet_tasks jsonData headers].
    assert (Hg : forall g,
      existsb (fun r => String.eqb (ToString (getNormalizedValue r ["groupTag"; "clientGroup"])) g)
              (<[i := item']> (jsonData (sheet_clients s)))
      = existsb (fun r => String.eqb (ToString (getNormalizedValue r ["groupTag"; "clientGroup"])) g)
                (jsonData (sheet_clients s))).
    { intros g. symmetry. apply existsb_Forall2. apply edited_rows_related; [reflexivity|].
      now rewrite edited_other. }
    assert (Hsame : forall rule,
      (match clientGroup rule with
       | Some g => if negb (is_empty g) then
           if negb (existsb (fun r => String.eqb (ToString (getNormalizedValue r ["groupTag"; "clientGroup"])) g)
                            (<[i := item']> (jsonData (sheet_clients s))))
           then [createError clients (-1) "Rules"
                   ("Slot Restriction rule references non-existent " ++ "client" ++ " group: "
                    ++ g ++ ".") warning]
           else [] else []
       | None => []
       end) =
      (match clientGroup rule with
       | Some g => if negb (is_empty g) then
           if negb (existsb (fun r => String.eqb (ToString (getNormalizedValue r ["groupTag"; "clientGroup"])) g)
                            (jsonData (sheet_clients s)))
           then [createError clients (-1) "Rules"
                   ("Slot Restriction rule references non-existent " ++ "client" ++ " group: "
                    ++ g ++ ".") warning]
           else [] else []
       | None => []
       end)).
    { intros rule. destruct (clientGroup rule) as [g|]; [|reflexivity]. now rewrite Hg. }
    erewrite flat_map_ext; [|intros rule; rewrite Hsame; reflexivity].
    symmetry. apply filter_id. each_error idtac; now apply otherCell_field.
Qed.

End PriorityEdit.

(** ** Identifiers of diagnostics *)

(** No dash in the string. *)
Fixpoint dashless (s : string) : bool :=
  match s with
  | EmptyString => true
  | String c s' => negb (Ascii.eqb c "-") && dashless s'
  end.

Lemma string_of_uint_dashless (u : Decimal.uint) :
  dashless (NilEmpty.string_of_uint u) = true.
Proof. induction u; simpl; auto. Qed.

Lemma nat_to_string_dashless (n : nat) : dashless (nat_to_string n) = true.
Proof.
  unfold nat_to_string, Z_to_string. destruct (Z.of_nat n) eqn:E; simpl.
  - reflexivity.
  - unfold NilZero.string_of_uint.
    destruct (Pos.to_uint p) eqn:Ep; try apply (string_of_uint_dashless (Pos.to_uint p));
      try (rewrite <- Ep; apply string_of_uint_dashless). reflexivity.
  - lia.
Qed.

Lemma nat_to_string_inj (n m : nat) : nat_to_string n = nat_to_string m -> n = m.
Proof.
  unfold nat_to_string, Z_to_string. intros H.
  assert (Hnn : forall z, Z.to_int z <> Decimal.Pos Decimal.Nil
                          /\ Z.to_int z <> Decimal.Neg Decimal.Nil).
  { intros [|p|p]; simpl; split; try discriminate; intros [= E];
      exact (DecimalPos.Unsigned.to_uint_nonnil p E). }
  assert (E : Some (Z.to_int (Z.of_nat n)) = Some (Z.to_int (Z.of_nat m))).
  { rewrite <- (NilZero.isi (Z.to_int (Z.of_nat n))) by apply Hnn.
    rewrite <- (NilZero.isi (Z.to_int (Z.of_nat m))) by apply Hnn. now rewrite H. }
  injection E as E. apply DecimalZ.to_int_inj in E. lia.
Qed.

(** Two texts that agree up to their first dash agree after it. *)
Lemma split_at_dash (s1 s2 r1 r2 : string) :
  dashless s1 = true -> dashless s2 = true ->
  (s1 ++ String "-" r1)%string = (s2 ++ String "-" r2)%string -> s1 = s2 /\ r1 = r2.
Proof.
  revert s2. induction s1 as [|c s1 IH]; intros [|c' s2]; simpl; intros H1 H2 H.
  - injection H as ->. auto.
  - injection H as <- _. apply andb_prop in H2 as [H2 _]. discriminate.
  - injection H as -> _. apply andb_prop in H1 as [H1 _]. discriminate.
  - injection H as -> H. apply andb_prop in H1 as [_ H1]. apply andb_prop in H2 as [_ H2].
    destruct (IH s2 H1 H2 H) as [-> ->]. auto.
Qed.

Definition jsonMessages : list string :=
  [object_error; "Value is not a valid JSON object."; "Malformed JSON object."].

(** The fields of the diagnostics of a row that are not column names. *)
Definition rowFields : list string :=
  ["id"; "priorityLevel"; "requestedTasks"; "availableSlots"; "maxLoadPerPhase"; "skills";
   "priority"; "duration"; "preferredPhases"; "maxConcurrent"].

(** A diagnostic is about the dataset (row index -1) or about a row, and
    then its field is one of the fixed ones or its message is one of the
    object parser. *)
Definition shaped (d : ValidationError) : Prop :=
  rowIndex d = (-1)%Z
  \/ (exists j, rowIndex d = Z.of_nat j)
     /\ (In (field d) rowFields \/ In (message d) jsonMessages).

Lemma parseJsonString_messages (v : value) (m : string) :
  snd (parseJsonString v) = Some m -> In m jsonMessages.
Proof.
  unfold jsonMessages. destruct v as [| | b | n | s | l | o]; simpl; try discriminate.
  destruct (is_empty (trim s)); simpl; [discriminate|].
  destruct (negb (startsWith "{" (trim s)) || negb (endsWith "}" (trim s)))%bool; simpl.
  - intros [= <-]. now left.
  - destruct (JSON_parse (trim s)) as [[| | | | | |]|]; simpl; intros [= <-]; auto.
Qed.

Lemma shaped_field e j f m l :
  In f rowFields -> shaped (createError e (Z.of_nat j) f m l).
Proof. intros H. right. split; [now exists j | now left]. Qed.

Lemma validateRow_shaped e r j s : List.Forall shaped (validateRow e r j s).
Proof.
  unfold validateRow, jsonColumns, priorityCheck, requestedTasksCheck, workerChecks,
    durationCheck, preferredPhasesCheck, maxConcurrentCheck.
  each_error ltac:(first [ apply shaped_field; simpl; tauto | idtac ]).
  right. split; [now exists j|]. right. simpl.
  destruct (snd (parseJsonString _)) as [m|] eqn:E; [|discriminate].
  eapply parseJsonString_messages, E.
Qed.

Lemma duplicateLoop_shaped e rows index ids :
  List.Forall shaped (duplicateLoop e rows index ids).
Proof.
  revert index ids. induction rows as [|r rows IH]; intros index ids; simpl; [constructor|].
  destruct (has_id _); [|apply IH].
  destruct (ids !! _); [constructor; [apply shaped_field; simpl; tauto | apply IH] | apply IH].
Qed.

Lemma allErrors_shaped (rs : list Rule) (s : Sheets) : List.Forall shaped (allErrors rs s).
Proof.
  unfold allErrors.
  apply List.Forall_app; split; [unfold schemaCheck; each_error ltac:(now left)|].
  apply List.Forall_app; split.
  { unfold duplicateCheck. apply List.Forall_flat_map, List.Forall_forall. intros.
    apply duplicateLoop_shaped. }
  apply List.Forall_app; split.
  { unfold rowValidation. apply List.Forall_flat_map, List.Forall_forall. intros.
    apply concat_imap_Forall. intros. apply validateRow_shaped. }
  apply List.Forall_app; split; [unfold phaseSaturation; each_error ltac:(now left)|].
  apply List.Forall_app; split; [unfold skillCoverage; each_error ltac:(now left)|].
  apply List.Forall_app; split.
  - unfold coRunCheck, coRunRule, circularError. each_error ltac:(now left).
  - unfold slotRestrictionCheck, groupCheck. each_error ltac:(now left).
Qed.

Definition priorityTail : string := "priorityLevel-Priority must be 1-5.".

Lemma no_json_tail (f m : string) :
  In m jsonMessages -> (f ++ String "-" m)%string <> priorityTail.
Proof.
  unfold jsonMessages, priorityTail.
  intros [<-|[<-|[<-|[]]]]; cbv [object_error quot String.append]; fold String.append;
    revert f;
    repeat (intros [|? f]; [cbn [String.append]; discriminate|];
            cbn [String.append]; intros H; injection H as _ H; revert f H);
    intros [|? f]; cbn [String.append]; discriminate.
Qed.

(** The identifier of the priority diagnostic of a cell belongs to no
    other diagnostic. *)
Lemma id_of_cell (d : ValidationError) (i : nat) :
  derived d -> shaped d ->
  id d = error_id clients (Z.of_nat i) "priorityLevel" "Priority must be 1-5." ->
  fromCell clients i "priorityLevel" d = true.
Proof.
  intros Hd Hs Hid. rewrite Hd in Hid. cbn [id createError] in Hid.
  unfold error_id in Hid.
  destruct (entity d) eqn:He; cbn [entity_name String.append] in Hid; try discriminate.
  injection Hid as Hid.
  change (Z_to_string (Z.of_nat i)) with (nat_to_string i) in Hid.
  destruct Hs as [Hm|[[j Hj] Hf]].
  - rewrite Hm in Hid. exfalso. pose proof (nat_to_string_dashless i) as Hdl.
    destruct (nat_to_string i) as [|c r]; cbn in Hid; [discriminate|].
    injection Hid as <- _. discriminate.
  - rewrite Hj in Hid. change (Z_to_string (Z.of_nat j)) with (nat_to_string j) in Hid.
    apply split_at_dash in Hid as [Hji Htail]; try apply nat_to_string_dashless.
    apply nat_to_string_inj in Hji. subst j.
    unfold fromCell. rewrite He, Hj, Z.eqb_refl, bool_decide_eq_true_2 by reflexivity.
    destruct Hf as [Hf|Hf].
    + unfold rowFields in Hf. simpl in Hf.
      destruct Hf as [Hf|[Hf|[Hf|[Hf|[Hf|[Hf|[Hf|[Hf|[Hf|[Hf|[]]]]]]]]]]];
        rewrite <- Hf in *; try reflexivity; cbn in Htail; discriminate.
    + exfalso. exact (no_json_tail _ _ Hf Htail).
Qed.


Definition sevenThenThree : Dashboard :=
  startState (clientsOnly [[("id", VStr "C1"); ("Priority Level", VNum (of_Z 7))];
                           [("id", VStr "C1"); ("Priority Level", VNum (of_Z 9))]]) [].


(** ** Co-run cycle detection *)

Section Search.

Variable graph : gmap string (list string).

(** The dependencies of a task in the graph of the rule. *)
Definition successors (t : string) : list string := default [] (graph !! t).

(** [edge a b]: the task [a] depends on [b]. *)
Definition edge (a b : string) : Prop := In b (successors a).

(** The graph has a cycle. *)
Definition cyclic : Prop := exists n, tc edge n n.

(** [finished n]: every chain of dependencies from [n] ends. *)
Definition finished (n : string) : Prop := Acc (fun c b => edge b c) n.

Lemma finished_no_cycle (n : string) : finished n -> ~ tc edge n n.
Proof.
  induction 1 as [n _ IH]. intros Hc.
  assert (exists c, edge n c /\ rtc edge c n) as (c & Hnc & Hcn).
  { inversion Hc as [x y H|x y z H Hyz]; subst.
    - exists n. split; [exact H | constructor].
    - exists y. split; [exact H | now apply tc_rtc]. }
  apply (IH c Hnc). eapply tc_rtc_l; [exact Hcn|]. now apply tc_once.
Qed.

(** All the tasks the search can meet. *)
Variable universe : gset string.
Hypothesis edges_inside : forall a b, edge a b -> b ∈ universe.

(** What a call may assume of the marks: the stack is visited, what is
    visited is in the universe with fewer than [n] tasks left, every task
    on the stack reaches the current one, and every visited task off the
    stack is finished. *)
Definition marks_ok (n : nat) (t : string) (m : marks) : Prop :=
  m.2 ⊆ m.1 /\ m.1 ⊆ universe /\ size (universe ∖ m.1) < n
  /\ (forall s, s ∈ m.2 -> rtc edge s t)
  /\ (forall b, b ∈ m.1 -> b ∉ m.2 -> finished b).

(** What a call of [detectCycle] on [t] from the marks [m] gives. *)
Definition search_ok (t : string) (m : marks) (res : option (bool * marks)) : Prop :=
  exists b m', res = Some (b, m')
    /\ if b : bool then cyclic
       else m'.2 = m.2 /\ m.1 ⊆ m'.1 /\ t ∈ m'.1 /\ m'.1 ⊆ universe
            /\ (forall b, b ∈ m'.1 -> b ∉ m.2 -> finished b).

Lemma depsLoop_ok (n : nat) (rec : string -> marks -> option (bool * marks)) (u : string) :
  (forall t m, t ∈ universe -> t ∉ m.1 -> marks_ok n t m -> search_ok t m (rec t m)) ->
  forall ds m,
    (forall d, In d ds -> edge u d) ->
    u ∈ m.2 -> marks_ok n u m ->
    exists b m', depsLoop rec u ds m = Some (b, m')
      /\ if b : bool then cyclic
         else m'.2 = m.2 ∖ {[u]} /\ m.1 ⊆ m'.1 /\ m'.1 ⊆ universe
              /\ (forall d, In d ds -> finished d)
              /\ (forall b, b ∈ m'.1 -> b ∉ m.2 -> finished b).
Proof.
  intros Hrec. induction ds as [|d ds IH]; intros m Hds Hu Hm.
  - exists false, (m.1, m.2 ∖ {[u]}). split; [reflexivity|].
    destruct Hm as (H1 & H2 & H3 & H4 & H5). simpl.
    split_and!; auto. intros d [].
  - destruct Hm as (H1 & H2 & H3 & H4 & H5).
    assert (Hud : edge u d) by (apply Hds; now left).
    cbn [depsLoop]. fold (depsLoop rec u).
    destruct (decide (d ∉ m.1)) as [Hd|Hd].
    + assert (Hpre : marks_ok n d m).
      { split_and!; auto. intros s Hs. eapply rtc_r; [apply H4, Hs | exact Hud]. }
      destruct (Hrec d m (edges_inside _ _ Hud) Hd Hpre) as (b & m' & -> & Hb).
      destruct b; [exists true, m'; split; [reflexivity | exact Hb]|].
      destruct Hb as (E2 & Hsub & Hdin & Huni & Hfin).
      destruct (IH m') as (b & m'' & -> & Hb).
      * intros d' Hd'. apply Hds. now right.
      * now rewrite E2.
      * unfold marks_ok. rewrite E2. split_and!; auto.
        -- etrans; [exact H1 | exact Hsub].
        -- eapply Nat.le_lt_trans; [|exact H3]. apply subseteq_size. set_solver.
      * exists b, m''. split; [reflexivity|]. destruct b; [exact Hb|].
        rewrite E2 in Hb. destruct Hb as (E2' & Hsub' & Huni' & Hds' & Hfin').
        split_and!; auto.
        -- etrans; [exact Hsub | exact Hsub'].
        -- intros d' [<-|Hd']; [|now apply Hds'].
           apply Hfin; [exact Hdin|]. intros Hd2. apply Hd. now apply H1.
    + destruct (decide (d ∈ m.2)) as [Hs|Hs].
      * exists true, m. split; [reflexivity|]. exists u.
        eapply tc_rtc_r; [apply tc_once, Hud | apply H4, Hs].
      * assert (Hdv : d ∈ m.1) by (destruct (decide (d ∈ m.1)); [assumption | contradiction]).
        destruct (IH m) as (b & m'' & -> & Hb).
        -- intros d' Hd'. apply Hds. now right.
        -- exact Hu.
        -- split_and!; auto.
        -- exists b, m''. split; [reflexivity|]. destruct b; [exact Hb|].
           destruct Hb as (E2' & Hsub' & Huni' & Hds' & Hfin').
           split_and!; auto.
           intros d' [<-|Hd']; [|now apply Hds']. now apply H5.
Qed.

Lemma detectCycle_ok (fuel : nat) (t : string) (m : marks) :
  t ∈ universe -> t ∉ m.1 -> marks_ok fuel t m ->
  search_ok t m (detectCycle fuel graph t m).
Proof.
  revert t m. induction fuel as [|fuel IH]; intros t m Ht Hnew Hm.
  - destruct Hm as (_ & _ & H3 & _). lia.
  - destruct Hm as (H1 & H2 & H3 & H4 & H5).
    cbn [detectCycle].
    destruct (depsLoop_ok fuel (detectCycle fuel graph) t IH
                (default [] (graph !! t)) ({[t]} ∪ m.1, {[t]} ∪ m.2))
      as (b & m' & -> & Hb).
    + intros d Hd. exact Hd.
    + simpl. set_solver.
    + simpl. split_and!.
      * set_solver.
      * set_solver.
      * eapply Nat.lt_le_trans; [|apply Nat.lt_succ_r; exact H3].
        apply subset_size. set_solver.
      * intros s Hs. simpl in Hs. apply elem_of_union in Hs as [Hs|Hs]; [|now apply H4].
        apply elem_of_singleton in Hs as ->. constructor.
      * intros b Hb Hnb. simpl in Hb, Hnb. apply H5; set_solver.
    + exists b, m'. split; [reflexivity|]. destruct b; [exact Hb|]. simpl in Hb.
      destruct Hb as (E2 & Hsub & Huni & Hds & Hfin).
      assert (Hts : t ∉ m.2) by (intros Hx; apply Hnew; now apply H1).
      split_and!.
      * rewrite E2. set_solver.
      * set_solver.
      * set_solver.
      * exact Huni.
      * intros b Hb Hnb. destruct (decide (b = t)) as [->|Hne].
        -- constructor. intros c Hc. apply Hds, Hc.
        -- apply Hfin; [exact Hb | set_solver].
Qed.

End Search.

Lemma cycleLoop_ok (graph : gmap string (list string)) (universe : gset string) (fuel : nat) :
  (forall a b, edge graph a b -> b ∈ universe) ->
  size universe < fuel ->
  forall ts m,
    (forall t, In t ts -> t ∈ universe) ->
    m.2 = ∅ -> m.1 ⊆ universe -> (forall b, b ∈ m.1 -> finished graph b) ->
    exists b, cycleLoop fuel graph ts m = Some b
      /\ if b : bool then cyclic graph else forall t, In t ts -> finished graph t.
Proof.
  intros Hin Hfuel. induction ts as [|t ts IH]; intros m Hts Hs Hv Hf.
  - exists false. split; [reflexivity|]. intros t [].
  - cbn [cycleLoop]. destruct (decide (t ∉ m.1)) as [Ht|Ht].
    + destruct (detectCycle_ok graph universe Hin fuel t m) as (b & m' & -> & Hb).
      * apply Hts. now left.
      * exact Ht.
      * unfold marks_ok. rewrite Hs. split_and!.
        -- set_solver.
        -- exact Hv.
        -- eapply Nat.le_lt_trans; [|exact Hfuel]. apply subseteq_size. set_solver.
        -- intros s Hx. set_solver.
        -- intros b Hb _. now apply Hf.
      * destruct b; [exists true; split; [reflexivity | exact Hb]|].
        destruct Hb as (E2 & Hsub & Htin & Huni & Hfin).
        destruct (IH m') as (b & -> & Hb).
        -- intros t' Ht'. apply Hts. now right.
        -- now rewrite E2.
        -- exact Huni.
        -- intros b Hb. apply Hfin; [exact Hb|]. rewrite Hs. set_solver.
        -- exists b. split; [reflexivity|]. destruct b; [exact Hb|].
           intros t' [<-|Ht']; [|now apply Hb].
           apply Hfin; [exact Htin|]. rewrite Hs. set_solver.
    + assert (Htv : t ∈ m.1) by (destruct (decide (t ∈ m.1)); [assumption | contradiction]).
      destruct (IH m) as (b & -> & Hb);
        [intros t' Ht'; apply Hts; now right | exact Hs | exact Hv | exact Hf |].
      exists b. split; [reflexivity|]. destruct b; [exact Hb|].
      intros t' [<-|Ht']; [now apply Hf | now apply Hb].
Qed.

Lemma size_list_to_set_le (l : list string) :
  size (list_to_set l : gset string) <= length l.
Proof.
  induction l as [|x l IH]; [rewrite list_to_set_nil, size_empty; simpl; lia|].
  rewrite list_to_set_cons, size_union_alt, size_singleton. cbn [length].
  assert (size (list_to_set l ∖ {[x]} : gset string) <= size (list_to_set l : gset string))
    by (apply subseteq_size; set_solver).
  lia.
Qed.

(** The step of the [forEach] that fills the graph. *)
Definition graphStep (rows : list row) (ruleTasks : list string)
    (graph : gmap string (list string)) (taskId : string) : gmap string (list string) :=
  match findTask rows taskId with
  | Some task => <[taskId := filteredDeps ruleTasks task]> graph
  | None => graph
  end.

Lemma graphStep_fold (rows : list row) (ruleTasks l : list string)
    (g0 : gmap string (list string)) (a : string) :
  fold_left (graphStep rows ruleTasks) l g0 !! a =
    match (if decide (a ∈ l) then findTask rows a else None) with
    | Some task => Some (filteredDeps ruleTasks task)
    | None => g0 !! a
    end.
Proof.
  revert g0. induction l as [|x l IH]; intros g0.
  - rewrite decide_False by apply not_elem_of_nil. reflexivity.
  - cbn [fold_left]. rewrite IH. unfold graphStep.
    destruct (decide (a ∈ l)) as [Hl|Hl].
    + rewrite decide_True by (apply elem_of_cons; now right).
      destruct (findTask rows a) eqn:Ea; [reflexivity|].
      destruct (decide (x = a)) as [->|Hne]; [now rewrite Ea|].
      destruct (findTask rows x); [now apply lookup_insert_ne | reflexivity].
    + destruct (decide (x = a)) as [->|Hne].
      * rewrite decide_True by (apply elem_of_cons; now left).
        destruct (findTask rows a); [apply lookup_insert_eq | reflexivity].
      * rewrite decide_False by (intros [?|?]%elem_of_cons; congruence).
        destruct (findTask rows x); [now apply lookup_insert_ne | reflexivity].
Qed.

(** The edges of the graph of a rule: from a task of the rule that is a
    row of the dataset to each of its parsed dependencies that is a task
    of the rule. *)
Lemma buildGraph_edge (rows : list row) (ts : list string) (a b : string) :
  edge (buildGraph rows ts) a b <->
  In a ts /\ exists task, findTask rows a = Some task /\ In b ts
    /\ In b (fst (parseArrayString (getNormalizedValue task ["dependencies"; "dependsOn"]))).
Proof.
  unfold edge, successors, buildGraph.
  change (fold_left _ ts ∅) with (fold_left (graphStep rows ts) ts ∅).
  rewrite graphStep_fold, lookup_empty.
  destruct (decide (a ∈ ts)) as [Ha%list_elem_of_In|Ha];
    [|assert (~ In a ts) by (now rewrite <- list_elem_of_In); clear Ha].
  - destruct (findTask rows a) as [task|]; simpl.
    + unfold filteredDeps. rewrite filter_In. split.
      * intros [Hb Hin]. split; [exact Ha|]. exists task. split; [reflexivity|].
        split; [|exact Hb]. apply existsb_exists in Hin as (x & Hx & E).
        apply String.eqb_eq in E. now subst.
      * intros (_ & task' & [= <-] & Hb & Hdep). split; [exact Hdep|].
        apply existsb_exists. exists b. split; [exact Hb | apply String.eqb_refl].
    + split; [intros [] | intros (_ & task' & [=] & _)].
  - simpl. split; [intros [] | tauto].
Qed.

Lemma coRunRule_cases (rows : list row) (ts : list string) :
  (cyclic (buildGraph rows ts) /\ coRunRule rows ts = [circularError ts])
  \/ (~ cyclic (buildGraph rows ts) /\ coRunRule rows ts = []).
Proof.
  set (g := buildGraph rows ts). set (U := list_to_set ts : gset string).
  assert (Hin : forall a b, edge g a b -> b ∈ U).
  { intros a b Hab. apply buildGraph_edge in Hab as (_ & task & _ & Hb & _).
    apply elem_of_list_to_set, list_elem_of_In, Hb. }
  destruct (cycleLoop_ok g U (S (length ts)) Hin) with (ts := ts) (m := (∅, ∅) : marks)
    as (b & Hres & Hb).
  - apply Nat.lt_succ_r, size_list_to_set_le.
  - intros t Ht. apply elem_of_list_to_set, list_elem_of_In, Ht.
  - reflexivity.
  - simpl. set_solver.
  - simpl. set_solver.
  - unfold coRunRule. fold g. rewrite Hres. destruct b; [left; now split|].
    right. split; [|reflexivity]. intros [n Hn].
    assert (Hnt : In n ts).
    { assert (exists c, edge g n c) as [c Hc].
      { inversion Hn as [x y H|x y z H _]; subst; eauto. }
      now apply buildGraph_edge in Hc as [Hc _]. }
    exact (finished_no_cycle g n (Hb n Hnt) Hn).
Qed.

Definition dependsOn (taskId deps : string) : row :=
  [("id", VStr taskId); ("dependencies", VStr deps)].

(** T1 depends on T2, T2 on T3 and T3 on T1. *)
Definition threeCycle : list row :=
  [dependsOn "T1" "T2"; dependsOn "T2" "T3"; dependsOn "T3" "T1"].

Definition T1T2T3 : list string := ["T1"; "T2"; "T3"].


